(** * OS fingerprinting CLI: a shallow embedding of [os_fingerprint_cli.py]

    The development follows the source file top-down:

    - [PyText]      the string primitives the program relies on
                    ([str.strip], [str.split], [in], and the two
                    [re.findall] patterns of the parser);
    - [Classifier]  [parse_os_fingerprint] and its labelled view [classify];
    - [Session]     the interactive workflow: [resolve_host],
                    [interactive_target_selection], [select_scan_mode],
                    [run_nmap_scan], [main] and the entry point, written in
                    a small state-and-exception monad over the operator's
                    answers, the console log and the child-process oracle.

    Python strings are modelled by [string]; a character is its code point
    in the range 0..255. *)

From Stdlib Require Import String Ascii List ZArith Lia Bool.
From Stdlib Require Import Numbers.DecimalString.
Import ListNotations.

Local Open Scope list_scope.
Local Open Scope string_scope.

(* ================================================================== *)
(** ** Text primitives *)
(* ================================================================== *)

Module PyText.

(** The line feed, the one character that [.] of [re] does not match. *)
Definition newline : ascii := "010"%char.

Definition is_newline (c : ascii) : bool := Ascii.eqb c newline.

(** [str.isspace] on the code points 0..255: TAB..CR, FS..US, SPACE,
    NEL (0x85) and NBSP (0xa0). *)
Definition is_space (c : ascii) : bool :=
  let n := nat_of_ascii c in
  (Nat.leb 9 n && Nat.leb n 13) || (Nat.leb 28 n && Nat.leb n 32)
  || Nat.eqb n 133 || Nat.eqb n 160.

(** [s.lstrip()], [s.rstrip()], [s.strip()]. *)
Fixpoint lstrip (s : string) : string :=
  match s with
  | EmptyString => EmptyString
  | String c s' => if is_space c then lstrip s' else s
  end.

Fixpoint rstrip (s : string) : string :=
  match s with
  | EmptyString => EmptyString
  | String c s' =>
      match rstrip s' with
      | EmptyString => if is_space c then EmptyString else String c EmptyString
      | r => String c r
      end
  end.

Definition strip (s : string) : string := rstrip (lstrip s).

(** [s.split()]: the maximal runs of non-whitespace characters.  [cur] is
    the token being read. *)
Fixpoint split_from (s cur : string) : list string :=
  match s with
  | EmptyString => match cur with EmptyString => [] | _ => [cur] end
  | String c s' =>
      if is_space c
      then match cur with
           | EmptyString => split_from s' EmptyString
           | _ => cur :: split_from s' EmptyString
           end
      else split_from s' (cur ++ String c EmptyString)
  end.

Definition split (s : string) : list string := split_from s EmptyString.

(** [s.startswith(p)], returning what follows the prefix. *)
Fixpoint strip_prefix (p s : string) : option string :=
  match p with
  | EmptyString => Some s
  | String a p' =>
      match s with
      | EmptyString => None
      | String b s' => if Ascii.eqb a b then strip_prefix p' s' else None
      end
  end.

(** [sub in s]. *)
Fixpoint contains (sub s : string) : bool :=
  match strip_prefix sub s with
  | Some _ => true
  | None =>
      match s with
      | EmptyString => false
      | String _ s' => contains sub s'
      end
  end.

(** The longest prefix of [s] made of characters that [.] matches. *)
Fixpoint take_line (s : string) : string :=
  match s with
  | EmptyString => EmptyString
  | String c s' => if is_newline c then EmptyString else String c (take_line s')
  end.

(** The group [(.+)] tried at the head of [s]: greedy, at least one
    character, never a line feed. *)
Definition dot_plus (s : string) : option string :=
  match take_line s with
  | EmptyString => None
  | cap => Some cap
  end.

(** The pattern [lit(.+)] tried at the head of [s]; the result is the
    captured group. *)
Definition match_here (lit s : string) : option string :=
  match strip_prefix lit s with
  | Some rest => dot_plus rest
  | None => None
  end.

(** [re.findall(lit + "(.+)", s)]: the scan tries every start position from
    left to right and, after a match, resumes at the end of that match.
    [skip] counts the characters of the current match still to be passed. *)
Fixpoint findall_from (lit s : string) (skip : nat) : list string :=
  match s with
  | EmptyString => []
  | String _ s' =>
      match skip with
      | S k => findall_from lit s' k
      | O =>
          match match_here lit s with
          | Some cap =>
              cap :: findall_from lit s' (String.length lit + String.length cap - 1)
          | None => findall_from lit s' 0
          end
      end
  end.

Definition re_findall (lit s : string) : list string := findall_from lit s 0.

(** The leftmost match alone, which is all the parser reads off the list. *)
Fixpoint first_match (lit s : string) : option string :=
  match match_here lit s with
  | Some cap => Some cap
  | None =>
      match s with
      | EmptyString => None
      | String _ s' => first_match lit s'
      end
  end.

(** *** Declarative readings, independent of the scanning functions *)

(** [sub] occurs somewhere in [s]. *)
Definition Substring (sub s : string) : Prop :=
  exists pre post : string, s = pre ++ sub ++ post.

(** No line feed in [s]. *)
Fixpoint one_line (s : string) : Prop :=
  match s with
  | EmptyString => True
  | String c s' => c <> newline /\ one_line s'
  end.

(** [s] is at a line end: nothing left, or a line feed next. *)
Definition at_line_end (s : string) : Prop :=
  s = EmptyString \/ exists s', s = String newline s'.

(** The literal [lit] occurs at offset [length pre], followed by at least
    one character that is not a line feed. *)
Definition OccursAt (lit pre s : string) : Prop :=
  exists (c : ascii) (rest : string), s = pre ++ lit ++ String c rest /\ c <> newline.

Definition Occurs (lit s : string) : Prop := exists pre, OccursAt lit pre s.

(** [cap] is the rest of the line after the leftmost such occurrence. *)
Definition FirstCapture (lit s cap : string) : Prop :=
  exists pre rest : string,
    s = pre ++ lit ++ cap ++ rest
    /\ cap <> EmptyString /\ one_line cap /\ at_line_end rest
    /\ forall pre', OccursAt lit pre' s -> String.length pre <= String.length pre'.

(** Every character of [s] is whitespace; none is. *)
Fixpoint all_space (s : string) : bool :=
  match s with
  | EmptyString => true
  | String c s' => is_space c && all_space s'
  end.

Fixpoint no_space (s : string) : bool :=
  match s with
  | EmptyString => true
  | String c s' => negb (is_space c) && no_space s'
  end.

(** A well-formed command-line token: not empty, no whitespace in it. *)
Definition token (s : string) : Prop := s <> EmptyString /\ no_space s = true.

End PyText.

(* ================================================================== *)
(** ** The fingerprint parser *)
(* ================================================================== *)

Module Classifier.
Import PyText.

(** [parse_os_fingerprint], lines 185-202: the value returned is the
    console markup shown for the target. *)
Definition parse_os_fingerprint (nmap_output : string) : string :=
  match nmap_output with
  | EmptyString => "[danger]No output received[/danger]"
  | _ =>
      let os_match := re_findall "OS details: " nmap_output in
      let os_guess := re_findall "Running: " nmap_output in
      match os_match, os_guess with
      | m :: _, _ => "[os]" ++ m ++ "[/os]"
      | [], g :: _ => "[os]" ++ g ++ "[/os]"
      | [], [] =>
          if contains "No exact OS matches" nmap_output
          then "[warning]No exact OS match found[/warning]"
          else if contains "Too many fingerprints match" nmap_output
          then "[warning]Too many fingerprints matched[/warning]"
          else if contains "OS detection performed" nmap_output
          then "[warning]OS detection performed, but inconclusive[/warning]"
          else "[danger]Could not parse OS fingerprint[/danger]"
      end
  end.

(** The seven outcomes of the parser: one per [return] of the function. *)
Inductive Kind : Type :=
| ExactMatch
| GuessedMatch
| NoExactMatch
| TooManyMatches
| InconclusiveDetection
| Unparseable
| Empty.

Record Fingerprint : Type := mkFingerprint { kind : Kind; detail : string }.

(** The same function with each [return] labelled by its outcome and the
    returned markup split into its style tag and the text inside it. *)
Definition classify (nmap_output : string) : Fingerprint :=
  match nmap_output with
  | EmptyString => mkFingerprint Empty "No output received"
  | _ =>
      let os_match := re_findall "OS details: " nmap_output in
      let os_guess := re_findall "Running: " nmap_output in
      match os_match, os_guess with
      | m :: _, _ => mkFingerprint ExactMatch m
      | [], g :: _ => mkFingerprint GuessedMatch g
      | [], [] =>
          if contains "No exact OS matches" nmap_output
          then mkFingerprint NoExactMatch "No exact OS match found"
          else if contains "Too many fingerprints match" nmap_output
          then mkFingerprint TooManyMatches "Too many fingerprints matched"
          else if contains "OS detection performed" nmap_output
          then mkFingerprint InconclusiveDetection
                 "OS detection performed, but inconclusive"
          else mkFingerprint Unparseable "Could not parse OS fingerprint"
      end
  end.

(** The style tag under which an outcome is printed. *)
Definition style (k : Kind) : string :=
  match k with
  | ExactMatch | GuessedMatch => "os"
  | NoExactMatch | TooManyMatches | InconclusiveDetection => "warning"
  | Unparseable | Empty => "danger"
  end.

Definition render (f : Fingerprint) : string :=
  "[" ++ style (kind f) ++ "]" ++ detail f ++ "[/" ++ style (kind f) ++ "]".

(** The decision list of the parser, read through the leftmost matches. *)
Definition decide (s : string) : Fingerprint :=
  match first_match "OS details: " s with
  | Some m => mkFingerprint ExactMatch m
  | None =>
      match first_match "Running: " s with
      | Some g => mkFingerprint GuessedMatch g
      | None =>
          if contains "No exact OS matches" s
          then mkFingerprint NoExactMatch "No exact OS match found"
          else if contains "Too many fingerprints match" s
          then mkFingerprint TooManyMatches "Too many fingerprints matched"
          else if contains "OS detection performed" s
          then mkFingerprint InconclusiveDetection
                 "OS detection performed, but inconclusive"
          else mkFingerprint Unparseable "Could not parse OS fingerprint"
      end
  end.

(** A non-empty text in which nothing that the parser looks for occurs. *)
Definition unmatched (s : string) : Prop :=
  s <> "" /\ ~ Occurs "OS details: " s /\ ~ Occurs "Running: " s
  /\ ~ Substring "No exact OS matches" s
  /\ ~ Substring "Too many fingerprints match" s
  /\ ~ Substring "OS detection performed" s.

End Classifier.

(* ================================================================== *)
(** ** The interactive session *)
(* ================================================================== *)

Module Session.
Import PyText Classifier.

(** *** Exceptions, the environment and the observable effects *)

(** What can unwind the Python stack.  [Exception what] is any instance of
    a subclass of [Exception] that the program does not name ([what] is its
    [str]); [SystemExit] and [KeyboardInterrupt] are not such subclasses. *)
Inductive exn : Type :=
| SystemExit (code : Z)
| KeyboardInterrupt
| Exception (what : string).

Inductive result (A : Type) : Type :=
| Ret (a : A)
| Raise (e : exn).
Arguments Ret {A} a.
Arguments Raise {A} e.

(** What [socket.gethostbyname] does with a name. *)
Inductive lookup : Type :=
| Resolved (ip : string)
| Gaierror
| LookupRaises (e : exn).

(** What [subprocess.run(argv, capture_output=True, text=True, timeout=120)]
    does. *)
Inductive proc : Type :=
| Completed (stdout stderr : string) (returncode : Z)
| TimeoutExpired
| RunRaises (e : exn).

(** One return of [Prompt.ask]: the operator's answer, or Ctrl-C. *)
Inductive action : Type :=
| Answer (s : string)
| Interrupt.

(** A Python [dict] from targets to text: insertion-ordered, assignment to
    a key already present keeps its position. *)
Definition dict : Type := list (string * string).

Fixpoint dict_set (k v : string) (d : dict) : dict :=
  match d with
  | [] => [(k, v)]
  | (k', v') :: d' =>
      if String.eqb k k' then (k', v) :: d' else (k', v') :: dict_set k v d'
  end.

Fixpoint dict_get (k : string) (d : dict) : option string :=
  match d with
  | [] => None
  | (k', v') :: d' => if String.eqb k k' then Some v' else dict_get k d'
  end.

Definition keys (d : dict) : list string := map fst d.

(** What the session does to the outside, in order. *)
Inductive event : Type :=
| Banner
| Disclaimer
| ConfigWritten (defaults : dict)
| Print (markup : string)
| ModeTable (rows : list (string * string))
| Scan (target : string) (argv : list string)
| ReportPanel (target osinfo : string)
| Plot (fingerprints : dict).

(** The state threaded through the session: the answers still to come, the
    console so far, and the number of child processes run so far. *)
Record world : Type := mkWorld {
  answers : list action;
  console : list event;
  spawned : nat
}.

Definition M (A : Type) : Type := world -> result A * world.

Definition ret {A} (a : A) : M A := fun w => (Ret a, w).

Definition raise {A} (e : exn) : M A := fun w => (Raise e, w).

Definition bind {A B} (m : M A) (f : A -> M B) : M B :=
  fun w =>
    match m w with
    | (Ret a, w') => f a w'
    | (Raise e, w') => (Raise e, w')
    end.

Notation "x <- m ;; k" := (bind m (fun x => k))
  (at level 61, m at next level, right associativity).
Notation "m ;; k" := (bind m (fun _ => k))
  (at level 61, right associativity).

Definition emit (e : event) : M unit :=
  fun w => (Ret tt, mkWorld (answers w) (console w ++ [e]) (spawned w)).

(** [console.print(markup)]. *)
Definition console_print (markup : string) : M unit := emit (Print markup).

Definition EOFError : exn := Exception "EOF when reading a line".

(** [Prompt.ask(...)]. *)
Definition prompt_ask : M string :=
  fun w =>
    match answers w with
    | [] => (Raise EOFError, w)
    | Answer s :: rest => (Ret s, mkWorld rest (console w) (spawned w))
    | Interrupt :: rest =>
        (Raise KeyboardInterrupt, mkWorld rest (console w) (spawned w))
    end.

(** Python truthiness of a string, of a list. *)
Definition truthy (s : string) : bool :=
  match s with EmptyString => false | _ => true end.

Definition nonempty {A} (l : list A) : bool :=
  match l with [] => false | _ => true end.

(** [str(n)] for an integer. *)
Definition str_int (n : Z) : string := NilZero.string_of_int (Z.to_int n).

(** [s.capitalize()] on ASCII letters. *)
Definition upper (c : ascii) : ascii :=
  let n := nat_of_ascii c in
  if Nat.leb 97 n && Nat.leb n 122 then ascii_of_nat (n - 32) else c.

Definition lower (c : ascii) : ascii :=
  let n := nat_of_ascii c in
  if Nat.leb 65 n && Nat.leb n 90 then ascii_of_nat (n + 32) else c.

Fixpoint lowercase (s : string) : string :=
  match s with
  | EmptyString => EmptyString
  | String c s' => String (lower c) (lowercase s')
  end.

Definition capitalize (s : string) : string :=
  match s with
  | EmptyString => EmptyString
  | String c s' => String (upper c) (lowercase s')
  end.

(** [SCAN_MODES], lines 121-133: name, description, fixed arguments. *)
Definition SCAN_MODES : list (string * (string * option string)) :=
  [ ("quick",
      ("Fast scan (less accurate, stealthier)",
       Some "-O --osscan-guess --max-retries 1 --host-timeout 30s"));
    ("aggressive",
      ("Thorough scan (more accurate, slower, noisy)",
       Some "-O -T4 --osscan-guess --version-all --max-retries 3"));
    ("custom", ("Custom Nmap arguments", None)) ].

Definition mode_args (mode : string) : string :=
  match find (fun m => String.eqb (fst m) mode) SCAN_MODES with
  | Some (_, (_, Some args)) => args
  | _ => EmptyString
  end.

Fixpoint mode_rows (idx : nat) (modes : list (string * (string * option string)))
  : list (string * string) :=
  match modes with
  | [] => []
  | (mode, (desc, _)) :: rest =>
      (str_int (Z.of_nat idx),
       "[primary]" ++ capitalize mode ++ "[/primary]: " ++ desc)
      :: mode_rows (S idx) rest
  end.

Definition default_config : dict :=
  [("nmap_path", "nmap"); ("default_scanmode", "quick")].

(** *** The program, over its environment *)

Section Program.

(** The name service, the child-process oracle (the [n]-th child process of
    the session, run with [argv]), the [DEFAULT] section of
    [osfp_config.ini] when the file exists, and whether the plotting
    libraries were importable. *)
Variable gethostbyname : string -> lookup.
Variable subprocess_run : nat -> list string -> proc.
Variable config_file : option dict.
Variable HAS_3D : bool.

(** [load_config], lines 84-95. *)
Definition load_config : M dict :=
  match config_file with
  | Some config => ret config
  | None => emit (ConfigWritten default_config) ;; ret default_config
  end.

(** [resolve_host], lines 99-103: only [socket.gaierror] is caught. *)
Definition resolve_host (target : string) : result (option string) :=
  match gethostbyname target with
  | Resolved ip => Ret (Some ip)
  | Gaierror => Ret None
  | LookupRaises e => Raise e
  end.

(** One pass through the body of the [while True] of
    [interactive_target_selection], lines 108-116, given the answer read. *)
Inductive iteration : Type :=
| Break
| Continue (targets : list string) (out : list event)
| Unwind (e : exn).

Definition target_step (target : string) (targets : list string)
  (out : list event) : iteration :=
  if negb (truthy (strip target)) then Break
  else
    match resolve_host (strip target) with
    | Raise e => Unwind e
    | Ret ip =>
        match ip with
        | Some (String c ip') =>
            Continue (targets ++ [String c ip'])
              (out ++ [Print ("  [success]Added:[/success] [ip]"
                              ++ String c ip' ++ "[/ip]")])
        | _ =>
            Continue targets
              (out ++ [Print ("  [danger]Invalid target: " ++ target
                              ++ "[/danger]")])
        end
    end.

(** The loop itself, over the answers still to come. *)
Fixpoint target_loop (pending : list action) (targets : list string)
  (out : list event) : result (list string) * list action * list event :=
  match pending with
  | [] => (Raise EOFError, [], out)
  | Interrupt :: rest => (Raise KeyboardInterrupt, rest, out)
  | Answer target :: rest =>
      match target_step target targets out with
      | Break => (Ret targets, rest, out)
      | Continue targets' out' => target_loop rest targets' out'
      | Unwind e => (Raise e, rest, out)
      end
  end.

(** [interactive_target_selection], lines 105-117. *)
Definition interactive_target_selection : M (list string) :=
  fun w =>
    let '(r, rest, out) := target_loop (answers w) [] (console w) in
    (r, mkWorld rest out (spawned w)).

(** The working set and the console after [n] further passes through the
    loop body, when the loop is still running then. *)
Fixpoint after_iterations (n : nat) (pending : list action)
  (targets : list string) (out : list event)
  : option (list string * list event) :=
  match n with
  | O => Some (targets, out)
  | S n' =>
      match pending with
      | Answer target :: rest =>
          match target_step target targets out with
          | Continue targets' out' => after_iterations n' rest targets' out'
          | _ => None
          end
      | _ => None
      end
  end.

(** An address that the name service returned for one of the answers. *)
Definition resolved_from (asked : list action) (t : string) : Prop :=
  exists x, In (Answer x) asked /\ gethostbyname (strip x) = Resolved t.

(** The [while True] of [select_scan_mode], lines 142-155. *)
Fixpoint mode_loop (pending : list action)
  : result (string * string) * list action :=
  match pending with
  | [] => (Raise EOFError, [])
  | Interrupt :: rest => (Raise KeyboardInterrupt, rest)
  | Answer choice :: rest =>
      if String.eqb choice "1" then (Ret ("quick", mode_args "quick"), rest)
      else if String.eqb choice "2"
      then (Ret ("aggressive", mode_args "aggressive"), rest)
      else if String.eqb choice "3"
      then match rest with
           | [] => (Raise EOFError, [])
           | Interrupt :: rest' => (Raise KeyboardInterrupt, rest')
           | Answer custom_args :: rest' => (Ret ("custom", custom_args), rest')
           end
      else mode_loop rest
  end.

(** [select_scan_mode], lines 135-155. *)
Definition select_scan_mode : M (string * string) :=
  emit (ModeTable (mode_rows 1 SCAN_MODES)) ;;
  fun w =>
    let '(r, rest) := mode_loop (answers w) in
    (r, mkWorld rest (console w) (spawned w)).

(** The argument vector of line 163 and 168: [cmd.split()]. *)
Definition nmap_command (nmap_path nmap_args target : string) : list string :=
  split (nmap_path ++ " " ++ nmap_args ++ " " ++ target).

(** The child process of lines 165-170, under its progress task. *)
Definition run_child (target : string) (argv : list string) : M proc :=
  fun w =>
    (Ret (subprocess_run (spawned w) argv),
     mkWorld (answers w) (console w ++ [Scan target argv]) (S (spawned w))).

(** What an invocation leaves in the result mapping. *)
Definition recorded (p : proc) : option string :=
  match p with
  | Completed stdout stderr _ => Some (stdout ++ stderr)
  | TimeoutExpired => Some EmptyString
  | RunRaises _ => None
  end.

(** The body of the [for target in targets] of [run_nmap_scan], lines
    162-180: only [subprocess.TimeoutExpired] is caught. *)
Definition scan_one (nmap_path nmap_args target : string) (results : dict)
  : M dict :=
  console_print (String newline "[info]Scanning " ++ target ++ "...[/info]") ;;
  p <- run_child target (nmap_command nmap_path nmap_args target) ;;
  match p with
  | Completed stdout stderr returncode =>
      let results' := dict_set target (stdout ++ stderr) results in
      (if Z.eqb returncode 0 then ret tt
       else console_print
              ("[danger]Nmap returned error (" ++ str_int returncode
               ++ ") for " ++ target ++ "[/danger]"
               ++ String newline stderr)) ;;
      ret results'
  | TimeoutExpired =>
      console_print ("[danger]Scan timed out for " ++ target ++ "[/danger]") ;;
      ret (dict_set target EmptyString results)
  | RunRaises e => raise e
  end.

(** The loop, lines 161-181. *)
Fixpoint scan_loop (nmap_path nmap_args : string) (targets : list string)
  (results : dict) : M dict :=
  match targets with
  | [] => ret results
  | target :: rest =>
      results' <- scan_one nmap_path nmap_args target results ;;
      scan_loop nmap_path nmap_args rest results'
  end.

(** [run_nmap_scan], lines 159-181. *)
Definition run_nmap_scan (nmap_path : string) (targets : list string)
  (nmap_args : string) : M dict :=
  scan_loop nmap_path nmap_args targets [].

(** [plot_3d_network_map], lines 206-237. *)
Definition plot_3d_network_map (fingerprints : dict) : M unit :=
  if negb HAS_3D
  then console_print
         "[warning]3D map feature unavailable. Install matplotlib & networkx for 3D maps.[/warning]"
  else emit (Plot fingerprints).

(** The [for target, output in results.items()] of [main], lines 259-267. *)
Fixpoint report_loop (items : dict) (fingerprints : dict) : M dict :=
  match items with
  | [] => ret fingerprints
  | (target, output) :: rest =>
      let osinfo := parse_os_fingerprint output in
      emit (ReportPanel target osinfo) ;;
      report_loop rest (dict_set target osinfo fingerprints)
  end.

Definition dict_get_default (k default : string) (d : dict) : string :=
  match dict_get k d with Some v => v | None => default end.

(** [main] from the mode selection on, lines 253-273. *)
Definition scan_and_report (nmap_path : string) (targets : list string)
  : M unit :=
  mode <- select_scan_mode ;;
  let '(scanmode, nmap_args) := mode in
  console_print ("[info]Selected scan mode: [scanmode]" ++ scanmode
                 ++ "[/scanmode][/info]" ++ String newline "[info]Nmap args: "
                 ++ nmap_args ++ "[/info]") ;;
  results <- run_nmap_scan nmap_path targets nmap_args ;;
  fingerprints <- report_loop results [] ;;
  (if HAS_3D
   then choice <- prompt_ask ;;
        if String.eqb choice "y" then plot_3d_network_map fingerprints
        else ret tt
   else ret tt) ;;
  console_print "[success]Scan complete. Stay ethical![/success]".

(** [main], lines 241-273. *)
Definition main : M unit :=
  emit Banner ;;
  emit Disclaimer ;;
  config <- load_config ;;
  let nmap_path := dict_get_default "nmap_path" "nmap" config in
  console_print "[primary]Welcome, penetration tester![/primary]" ;;
  targets <- interactive_target_selection ;;
  if negb (nonempty targets)
  then console_print "[danger]No targets provided. Exiting.[/danger]" ;;
       raise (SystemExit 1)
  else scan_and_report nmap_path targets.

(** The entry point, lines 277-283, and the exit status of the process. *)
Definition entry_point (w : world) : Z * world :=
  match main w with
  | (Ret _, w') => (0%Z, w')
  | (Raise (SystemExit code), w') => (code, w')
  | (Raise KeyboardInterrupt, w') =>
      (0%Z, snd (console_print (String newline "[warning]Aborted by user.[/warning]") w'))
  | (Raise (Exception what), w') =>
      (0%Z, snd (console_print ("[danger]Error: " ++ what ++ "[/danger]") w'))
  end.

End Program.

(** *** The batch, read off the oracle *)

Section Batch.

Variable subprocess_run : nat -> list string -> proc.
Variables nmap_path nmap_args : string.

(** The child process that the [n]-th invocation of the session is, when it
    scans [target]. *)
Definition child (n : nat) (target : string) : proc :=
  subprocess_run n (nmap_command nmap_path nmap_args target).

(** Every invocation of the batch, the first being the [n]-th of the
    session, completes or times out. *)
Fixpoint batch_runs (n : nat) (targets : list string) : bool :=
  match targets with
  | [] => true
  | t :: rest =>
      match recorded (child n t) with
      | Some _ => batch_runs (S n) rest
      | None => false
      end
  end.

(** The text that the invocation leaves in the mapping. *)
Definition raw_text (n : nat) (target : string) : string :=
  match recorded (child n target) with Some v => v | None => EmptyString end.

(** The mapping after the batch. *)
Fixpoint batch_results (n : nat) (targets : list string) (results : dict) : dict :=
  match targets with
  | [] => results
  | t :: rest => batch_results (S n) rest (dict_set t (raw_text n t) results)
  end.

(** What one pass of the loop shows and runs. *)
Definition pass_trace (n : nat) (target : string) : list event :=
  [ Print (String newline "[info]Scanning " ++ target ++ "...[/info]");
    Scan target (nmap_command nmap_path nmap_args target) ]
  ++ match child n target with
     | Completed _ stderr returncode =>
         if Z.eqb returncode 0 then []
         else [Print ("[danger]Nmap returned error (" ++ str_int returncode
                      ++ ") for " ++ target ++ "[/danger]"
                      ++ String newline stderr)]
     | TimeoutExpired =>
         [Print ("[danger]Scan timed out for " ++ target ++ "[/danger]")]
     | RunRaises _ => []
     end.

Fixpoint batch_trace (n : nat) (targets : list string) : list event :=
  match targets with
  | [] => []
  | t :: rest => (pass_trace n t ++ batch_trace (S n) rest)%list
  end.

End Batch.

(** *** Reading the console back *)

(** The targets of the report panels, in the order they were printed. *)
(** The report panels as (target, text) pairs, in the order they were
    printed, and their targets. *)
Definition report_entries (log : list event) : list (string * string) :=
  flat_map (fun e => match e with ReportPanel t o => [(t, o)] | _ => [] end) log.

Definition report_targets (log : list event) : list string :=
  map fst (report_entries log).

(** The panel of line 262 for an item of the result mapping. *)
Definition report_panel (item : string * string) : string * string :=
  (fst item, parse_os_fingerprint (snd item)).

(** The child processes run, as (target, argv) pairs, in order. *)
Definition scans (log : list event) : list (string * list string) :=
  flat_map (fun e => match e with Scan t argv => [(t, argv)] | _ => [] end) log.

(** The distinct elements of a list in the order of their first
    occurrence. *)
Definition note (seen : list string) (t : string) : list string :=
  if existsb (String.eqb t) seen then seen else seen ++ [t].

Definition first_occurrences (l : list string) : list string :=
  fold_left note l [].

(** The number of occurrences of a target in a list. *)
Definition occurrences (t : string) (l : list string) : nat :=
  List.length (filter (String.eqb t) l).

(** The message of line 251. *)
Definition no_targets_message : event :=
  Print "[danger]No targets provided. Exiting.[/danger]".

(** The start of a session after the greeting of [main], lines 242-248. *)
Definition greeted (config_file : option dict) (w : world) : world :=
  mkWorld (answers w)
    (console w ++ [Banner; Disclaimer]
       ++ match config_file with
          | Some _ => []
          | None => [ConfigWritten default_config]
          end
       ++ [Print "[primary]Welcome, penetration tester![/primary]"])
    (spawned w).

Definition configured_nmap_path (config_file : option dict) : string :=
  dict_get_default "nmap_path" "nmap"
    match config_file with Some c => c | None => default_config end.

(** *** The entry loop and the mode menu, answer by answer *)

Section Entry.

Variable gethostbyname : string -> lookup.

(** An answer after which the entry loop goes on: it is not blank and its
    look-up raises nothing that [resolve_host] lets through. *)
Definition goes_on (a : string) : bool :=
  truthy (strip a)
  && match gethostbyname (strip a) with
     | LookupRaises _ => false
     | _ => true
     end.

(** What such an answer adds to the working set, and what is printed for
    it (lines 112-116). *)
Definition address_of (a : string) : list string :=
  match gethostbyname (strip a) with
  | Resolved (String c ip) => [String c ip]
  | _ => []
  end.

Definition entry_message (a : string) : event :=
  match gethostbyname (strip a) with
  | Resolved (String c ip) =>
      Print ("  [success]Added:[/success] [ip]" ++ String c ip ++ "[/ip]")
  | _ => Print ("  [danger]Invalid target: " ++ a ++ "[/danger]")
  end.

End Entry.

(** An answer that the mode menu acts on (lines 146-150). *)
Definition is_choice (c : string) : bool :=
  String.eqb c "1" || String.eqb c "2" || String.eqb c "3".

(** The table of line 141, the messages of lines 209, 273, 281 and 283. *)
Definition mode_table : event := ModeTable (mode_rows 1 SCAN_MODES).

Definition unavailable_warning : event :=
  Print "[warning]3D map feature unavailable. Install matplotlib & networkx for 3D maps.[/warning]".

Definition completion_message : event :=
  Print "[success]Scan complete. Stay ethical![/success]".



(** The message of line 254. *)
Definition mode_message (scanmode nmap_args : string) : event :=
  Print ("[info]Selected scan mode: [scanmode]" ++ scanmode
         ++ "[/scanmode][/info]" ++ String newline "[info]Nmap args: "
         ++ nmap_args ++ "[/info]").

(** The panel of line 267, as an event. *)
Definition panel_event (item : string * string) : event :=
  ReportPanel (fst item) (parse_os_fingerprint (snd item)).

(** An event that is no report panel, no plot and not the warning of
    line 209. *)
Definition plain (e : event) : bool :=
  match e with
  | ReportPanel _ _ | Plot _ => false
  | Print m =>
      negb (String.eqb m
              "[warning]3D map feature unavailable. Install matplotlib & networkx for 3D maps.[/warning]")
  | _ => true
  end.


(** *** A concrete environment, for running the model *)

(** A name service that knows the loopback names and two hosts, fails the
    look-up of any other name, and rejects a name with an empty label while
    encoding it, before any look-up. *)
Definition demo_gethostbyname (name : string) : lookup :=
  if String.eqb name "127.0.0.1" || String.eqb name "localhost"
  then Resolved "127.0.0.1"
  else if String.eqb name "10.0.0.1" || String.eqb name "10.0.0.2"
  then Resolved name
  else if String.eqb name "a..b"
  then LookupRaises
         (Exception "encoding with 'idna' codec failed (UnicodeError: label empty or too long)")
  else Gaierror.

(** A child-process oracle: the first process of the session times out, the
    second guesses, the third fails with a diagnostic, later ones are
    exact. *)
Definition demo_subprocess_run (n : nat) (argv : list string) : proc :=
  match n with
  | 0 => TimeoutExpired
  | 1 => Completed ("Running: Linux 3.2 - 4.9" ++ String newline "") "" 0
  | 2 => Completed "" "Failed to resolve" 1
  | _ => Completed ("OS details: Linux 5.0 - 5.4" ++ String newline "Running: Linux 3.2") "" 0
  end.

(** Two outputs of the scanner: an exact line followed by a guess, and a
    guess alone in the middle of a line. *)
Definition exact_then_guess : string :=
  "OS details: Linux 5.0 - 5.4" ++ String newline "Running: Linux 3.2".

Definition guess_mid_line : string :=
  "Host is up. Running: Linux 3.2 - 4.9" ++ String newline "done".

(** A session whose operator enters a name that the encoder rejects. *)
Definition empty_label : world :=
  mkWorld [Answer "10.0.0.1"; Answer "a..b"; Answer ""; Answer "1"] [] 0.



(** The demonstration name service, deaf to any name that is not
    stripped. *)
Definition demo_if_stripped (name : string) : lookup :=
  if String.eqb (strip name) name then demo_gethostbyname name else Gaierror.

(** A session with custom arguments that ends with the plot, and the
    answers of an operator who mistypes the mode first. *)
Definition plotting_session : world :=
  mkWorld [Answer "localhost"; Answer ""; Answer "3"; Answer "-O -v"; Answer "y"]
    [] 0.

Definition mistyped_mode : world :=
  mkWorld [Answer "9"; Answer "3"; Answer "-sV"] [] 0.

(** A session whose operator enters the same address twice. *)
Definition twice_the_same : world :=
  mkWorld [Answer "10.0.0.1"; Answer " 10.0.0.1 "; Answer ""; Answer "1"] [] 0.

(** A session whose operator enters nothing that resolves. *)
Definition nothing_resolves : world :=
  mkWorld [Answer "no-such-host.invalid"; Answer "  "] [] 0.

End Session.

(* ================================================================== *)
(** ** Properties of the text primitives *)
(* ================================================================== *)

Module PyTextFacts.
Import PyText.

Lemma is_newline_true (c : ascii) : is_newline c = true <-> c = newline.
Proof. unfold is_newline. apply Ascii.eqb_eq. Qed.

Lemma is_newline_false (c : ascii) : is_newline c = false <-> c <> newline.
Proof. unfold is_newline. apply Ascii.eqb_neq. Qed.

Lemma str_app_assoc (a b c : string) : (a ++ b) ++ c = a ++ b ++ c.
Proof. induction a as [|x a IH]; simpl; [reflexivity | now rewrite IH]. Qed.

Lemma str_app_empty_r (a : string) : a ++ "" = a.
Proof. induction a as [|x a IH]; simpl; [reflexivity | now rewrite IH]. Qed.

Lemma strip_prefix_app (p s : string) : strip_prefix p (p ++ s) = Some s.
Proof.
  induction p as [|a p IH]; simpl; [reflexivity|].
  now rewrite Ascii.eqb_refl.
Qed.

Lemma strip_prefix_Some (p s r : string) :
  strip_prefix p s = Some r -> s = p ++ r.
Proof.
  revert s. induction p as [|a p IH]; simpl; intros s H.
  - now inversion H.
  - destruct s as [|b s]; [discriminate|].
    destruct (Ascii.eqb_spec a b) as [->|]; [|discriminate].
    now rewrite (IH _ H).
Qed.

Lemma strip_prefix_None (p s : string) :
  strip_prefix p s = None -> forall r, s <> p ++ r.
Proof.
  intros H r ->. rewrite strip_prefix_app in H. discriminate.
Qed.

Lemma contains_unfold (sub s : string) :
  contains sub s =
  match strip_prefix sub s with
  | Some _ => true
  | None => match s with "" => false | String _ s' => contains sub s' end
  end.
Proof. destruct s; reflexivity. Qed.

(** [contains] is the substring relation. *)
Lemma contains_true (sub s : string) :
  contains sub s = true <-> Substring sub s.
Proof.
  split.
  - induction s as [|c s IH]; rewrite contains_unfold.
    + destruct (strip_prefix sub "") as [r|] eqn:E; [|discriminate].
      intros _. exists "", r. simpl. now apply strip_prefix_Some.
    + destruct (strip_prefix sub (String c s)) as [r|] eqn:E.
      * intros _. exists "", r. simpl. now apply strip_prefix_Some.
      * intros H. destruct (IH H) as (pre & post & ->).
        now exists (String c pre), post.
  - intros (pre & post & ->). induction pre as [|c pre IH];
      rewrite contains_unfold; simpl.
    + now rewrite strip_prefix_app.
    + destruct (strip_prefix sub (String c (pre ++ sub ++ post)));
        [reflexivity | exact IH].
Qed.

Lemma contains_false (sub s : string) :
  contains sub s = false <-> ~ Substring sub s.
Proof.
  rewrite <- contains_true. destruct (contains sub s); split; intros H;
    try reflexivity; try discriminate; try (intros H'; discriminate).
  now destruct H.
Qed.

(** The line taken by [(.+)]. *)
Lemma take_line_one_line (s : string) : one_line (take_line s).
Proof.
  induction s as [|c s IH]; simpl; [exact I|].
  destruct (is_newline c) eqn:E; simpl; [exact I|].
  split; [now apply is_newline_false | exact IH].
Qed.

Lemma take_line_split (s : string) :
  exists rest, s = take_line s ++ rest /\ at_line_end rest.
Proof.
  induction s as [|c s (rest & IH & Hend)]; simpl.
  - exists "". split; [reflexivity | now left].
  - destruct (is_newline c) eqn:E.
    + apply is_newline_true in E. subst c.
      exists (String newline s). split; [reflexivity | right; now exists s].
    + exists rest. simpl. split; [now rewrite <- IH | exact Hend].
Qed.

Lemma take_line_app (cap rest : string) :
  one_line cap -> at_line_end rest -> take_line (cap ++ rest) = cap.
Proof.
  intros Hcap Hrest. induction cap as [|c cap IH]; simpl.
  - destruct Hrest as [->|(s' & ->)]; reflexivity.
  - destruct Hcap as [Hc Hcap]. apply is_newline_false in Hc. rewrite Hc.
    now rewrite IH.
Qed.

Lemma dot_plus_Some (s cap : string) :
  dot_plus s = Some cap <->
  cap <> "" /\ one_line cap /\ exists rest, s = cap ++ rest /\ at_line_end rest.
Proof.
  unfold dot_plus. split.
  - destruct (take_line s) as [|c t] eqn:E; [discriminate|].
    intros H. inversion H; subst cap. rewrite <- E.
    split; [rewrite E; discriminate|].
    split; [apply take_line_one_line | apply take_line_split].
  - intros (Hne & Hone & rest & -> & Hend).
    rewrite take_line_app by assumption.
    destruct cap; [contradiction | reflexivity].
Qed.

Lemma dot_plus_head (s : string) :
  (exists cap, dot_plus s = Some cap) <->
  exists c rest, s = String c rest /\ c <> newline.
Proof.
  unfold dot_plus. destruct s as [|c s]; simpl.
  - split; [intros (cap & H); discriminate | intros (c & r & H & _); discriminate].
  - destruct (is_newline c) eqn:E.
    + apply is_newline_true in E. split.
      * intros (cap & H). discriminate.
      * intros (c' & r & H & Hc). inversion H. congruence.
    + apply is_newline_false in E. split.
      * intros _. now exists c, s.
      * intros _. eexists. reflexivity.
Qed.

(** The pattern at the head of the text. *)
Lemma match_here_Some (lit s cap : string) :
  match_here lit s = Some cap <->
  cap <> "" /\ one_line cap
  /\ exists rest, s = lit ++ cap ++ rest /\ at_line_end rest.
Proof.
  unfold match_here. split.
  - destruct (strip_prefix lit s) as [r|] eqn:E; [|discriminate].
    intros H. apply dot_plus_Some in H. destruct H as (Hne & Hone & rest & -> & Hend).
    apply strip_prefix_Some in E. repeat split; try assumption.
    now exists rest.
  - intros (Hne & Hone & rest & -> & Hend). rewrite strip_prefix_app.
    apply dot_plus_Some. repeat split; try assumption. now exists rest.
Qed.

Lemma match_here_occurs (lit s : string) :
  (exists cap, match_here lit s = Some cap) <-> OccursAt lit "" s.
Proof.
  unfold match_here, OccursAt. simpl. split.
  - intros (cap & H). destruct (strip_prefix lit s) as [r|] eqn:E; [|discriminate].
    apply strip_prefix_Some in E. subst s.
    destruct (proj1 (dot_plus_head r) (ex_intro _ cap H)) as (c & rest & -> & Hc).
    now exists c, rest.
  - intros (c & rest & -> & Hc). rewrite strip_prefix_app.
    apply dot_plus_head. now exists c, rest.
Qed.

Lemma match_here_empty (lit : string) : match_here lit "" = None.
Proof.
  destruct (match_here lit "") as [cap|] eqn:E; [|reflexivity].
  apply match_here_Some in E. destruct E as (Hne & _ & rest & H & _).
  destruct lit; [|discriminate]. destruct cap; [contradiction | discriminate].
Qed.

Lemma first_match_unfold (lit s : string) :
  first_match lit s =
  match match_here lit s with
  | Some cap => Some cap
  | None => match s with "" => None | String _ s' => first_match lit s' end
  end.
Proof. destruct s; reflexivity. Qed.

(** [re.findall(...)[0]] is the leftmost match. *)
Lemma findall_head (lit s : string) :
  hd_error (re_findall lit s) = first_match lit s.
Proof.
  unfold re_findall. induction s as [|c s IH].
  - rewrite first_match_unfold, match_here_empty. reflexivity.
  - rewrite first_match_unfold. simpl findall_from.
    destruct (match_here lit (String c s)); [reflexivity | exact IH].
Qed.

Lemma findall_nil (lit s : string) :
  re_findall lit s = [] <-> first_match lit s = None.
Proof.
  rewrite <- findall_head. destruct (re_findall lit s); simpl; split;
    intros H; try reflexivity; discriminate.
Qed.

Lemma findall_cons (lit s cap : string) :
  first_match lit s = Some cap ->
  exists more, re_findall lit s = cap :: more.
Proof.
  rewrite <- findall_head. destruct (re_findall lit s) as [|x more]; simpl;
    intros H; [discriminate|]. inversion H. now exists more.
Qed.

Lemma occurs_at_tail (lit pre s : string) (a : ascii) :
  OccursAt lit pre s <-> OccursAt lit (String a pre) (String a s).
Proof.
  unfold OccursAt. split; intros (c & rest & H & Hc); exists c, rest;
    split; try assumption; simpl in *; [now rewrite H | now inversion H].
Qed.

(** The leftmost match is the declarative first capture. *)
Lemma first_capture_match (lit s cap : string) :
  FirstCapture lit s cap -> first_match lit s = Some cap.
Proof.
  intros (pre & rest & Hs & Hne & Hone & Hend & Hmin).
  revert s Hs Hmin. induction pre as [|a pre IH]; intros s Hs Hmin.
  - simpl in Hs. rewrite first_match_unfold.
    rewrite (proj2 (match_here_Some lit s cap)); [reflexivity|].
    repeat split; try assumption. now exists rest.
  - simpl in Hs. rewrite first_match_unfold.
    destruct (match_here lit s) as [cap'|] eqn:E.
    + assert (Hocc : OccursAt lit "" s)
        by (apply match_here_occurs; now exists cap').
      apply Hmin in Hocc. simpl in Hocc. lia.
    + subst s. apply IH; [reflexivity|].
      intros pre' Hocc. apply (occurs_at_tail lit pre' _ a) in Hocc.
      apply Hmin in Hocc. simpl in Hocc. lia.
Qed.

(** Conversely the leftmost match, when there is one, is a first capture:
    every text in which the pattern occurs has exactly one. *)
Lemma first_match_capture (lit s cap : string) :
  first_match lit s = Some cap -> FirstCapture lit s cap.
Proof.
  induction s as [|a s IH]; rewrite first_match_unfold.
  - rewrite match_here_empty. discriminate.
  - destruct (match_here lit (String a s)) as [cap'|] eqn:E.
    + intros H. inversion H; subst cap'. apply match_here_Some in E.
      destruct E as (Hne & Hone & rest & Hs & Hend).
      exists "", rest. simpl. repeat split; try assumption.
      intros pre' _. lia.
    + intros H. destruct (IH H) as (pre & rest & Hs & Hne & Hone & Hend & Hmin).
      exists (String a pre), rest. simpl. rewrite <- Hs.
      repeat split; try assumption.
      intros pre' Hocc. destruct pre' as [|a' pre'].
      * apply match_here_occurs in Hocc. destruct Hocc as (c & Hc). congruence.
      * assert (a' = a) by (destruct Hocc as (c & r & Hc & _); now inversion Hc).
        subst a'. apply occurs_at_tail in Hocc. apply Hmin in Hocc. simpl. lia.
Qed.

Lemma first_match_none (lit s : string) :
  first_match lit s = None <-> ~ Occurs lit s.
Proof.
  split.
  - intros H (pre & Hocc). revert s H Hocc.
    induction pre as [|a pre IH]; intros s H Hocc.
    + apply match_here_occurs in Hocc. destruct Hocc as (cap & Hcap).
      rewrite first_match_unfold, Hcap in H. discriminate.
    + destruct Hocc as (c & rest & -> & Hc).
      rewrite first_match_unfold in H. simpl in H.
      destruct (match_here lit (String a (pre ++ lit ++ String c rest)));
        [discriminate|].
      apply (IH _ H). now exists c, rest.
  - intros H. induction s as [|a s IH]; rewrite first_match_unfold.
    + destruct (match_here lit "") as [cap|] eqn:E; [|reflexivity].
      exfalso. apply H. exists "". apply match_here_occurs. now exists cap.
    + destruct (match_here lit (String a s)) as [cap|] eqn:E.
      * exfalso. apply H. exists "". apply match_here_occurs. now exists cap.
      * apply IH. intros (pre & Hocc). apply H. exists (String a pre).
        now apply occurs_at_tail.
Qed.

(** Any match is a non-empty piece of a single line. *)
Lemma first_match_shape (lit s cap : string) :
  first_match lit s = Some cap -> cap <> "" /\ one_line cap.
Proof.
  induction s as [|a s IH]; rewrite first_match_unfold.
  - destruct (match_here lit "") as [cap'|] eqn:E; [|discriminate].
    intros H. inversion H; subst. apply match_here_Some in E. tauto.
  - destruct (match_here lit (String a s)) as [cap'|] eqn:E; [|exact IH].
    intros H. inversion H; subst. apply match_here_Some in E. tauto.
Qed.

Lemma occurs_first_match (lit s : string) :
  Occurs lit s -> exists cap, first_match lit s = Some cap.
Proof.
  intros H. destruct (first_match lit s) as [cap|] eqn:E; [now exists cap|].
  apply first_match_none in E. contradiction.
Qed.

End PyTextFacts.

(* ================================================================== *)
(** ** The fingerprint parser: what it returns *)
(* ================================================================== *)

Module ClassifierFacts.
Import PyText PyTextFacts Classifier.

Lemma classify_decide (s : string) : s <> "" -> classify s = decide s.
Proof.
  intros Hs. destruct s as [|c s]; [contradiction|].
  unfold classify, decide.
  rewrite <- !findall_head.
  destruct (re_findall "OS details: " (String c s));
    destruct (re_findall "Running: " (String c s)); reflexivity.
Qed.

(** The string returned by the source function is the labelled outcome,
    printed under its style tag. *)
Lemma parse_render (s : string) : parse_os_fingerprint s = render (classify s).
Proof.
  destruct s as [|c s]; [reflexivity|].
  unfold parse_os_fingerprint, classify.
  destruct (re_findall "OS details: " (String c s)) as [|m ms].
  - destruct (re_findall "Running: " (String c s)) as [|g gs].
    + destruct (contains "No exact OS matches" (String c s)); [reflexivity|].
      destruct (contains "Too many fingerprints match" (String c s)); [reflexivity|].
      destruct (contains "OS detection performed" (String c s)); reflexivity.
    + reflexivity.
  - reflexivity.
Qed.

Lemma occurs_nonempty (lit s : string) : Occurs lit s -> s <> "".
Proof.
  intros (pre & c & rest & -> & _) H.
  destruct pre; [|discriminate]. destruct lit; discriminate.
Qed.

Lemma first_capture_occurs (lit s cap : string) :
  FirstCapture lit s cap -> Occurs lit s.
Proof.
  intros (pre & rest & -> & Hne & Hone & _). exists pre.
  destruct cap as [|c cap]; [contradiction|]. exists c, (cap ++ rest).
  split; [reflexivity | exact (proj1 Hone)].
Qed.

(** [C1].  A text with a match of [OS details: X] is classified
    [ExactMatch] with the rest of the line of the leftmost such match as
    its detail, whatever [Running: Y] matches it also holds; a text with no
    such match and a match of [Running: Y] is classified [GuessedMatch]
    with the rest of the line of the leftmost [Running:] match.  A text in
    which a pattern occurs always has such a leftmost match. *)
Theorem exact_match_wins (s : string) :
  (forall X, FirstCapture "OS details: " s X ->
     classify s = mkFingerprint ExactMatch X
     /\ parse_os_fingerprint s = "[os]" ++ X ++ "[/os]")
  /\ (forall Y, ~ Occurs "OS details: " s -> FirstCapture "Running: " s Y ->
        classify s = mkFingerprint GuessedMatch Y
        /\ parse_os_fingerprint s = "[os]" ++ Y ++ "[/os]")
  /\ (forall lit, Occurs lit s -> exists cap, FirstCapture lit s cap).
Proof.
  split; [|split];
    [| |intros lit H; destruct (occurs_first_match _ _ H) as (cap & E);
        exists cap; now apply first_match_capture].
  - intros X HX.
    assert (Hs : s <> "") by (eapply occurs_nonempty, first_capture_occurs, HX).
    assert (E : classify s = mkFingerprint ExactMatch X).
    { rewrite classify_decide by exact Hs. unfold decide.
      now rewrite (first_capture_match _ _ _ HX). }
    split; [exact E | rewrite parse_render, E; reflexivity].
  - intros Y Hno HY.
    assert (Hs : s <> "") by (eapply occurs_nonempty, first_capture_occurs, HY).
    assert (E : classify s = mkFingerprint GuessedMatch Y).
    { rewrite classify_decide by exact Hs. unfold decide.
      rewrite (proj2 (first_match_none _ _) Hno).
      now rewrite (first_capture_match _ _ _ HY). }
    split; [exact E | rewrite parse_render, E; reflexivity].
Qed.

(** [C2].  A non-empty text with no match of either line pattern is
    classified by the first of the three substrings it holds, in the order
    [No exact OS matches], [Too many fingerprints match],
    [OS detection performed], later ones being ignored; with none of them
    it is [Unparseable]. *)
Theorem substring_priority (s : string) :
  s <> "" -> ~ Occurs "OS details: " s -> ~ Occurs "Running: " s ->
  (Substring "No exact OS matches" s ->
     kind (classify s) = NoExactMatch
     /\ parse_os_fingerprint s = "[warning]No exact OS match found[/warning]")
  /\ (~ Substring "No exact OS matches" s ->
      Substring "Too many fingerprints match" s ->
        kind (classify s) = TooManyMatches
        /\ parse_os_fingerprint s = "[warning]Too many fingerprints matched[/warning]")
  /\ (~ Substring "No exact OS matches" s ->
      ~ Substring "Too many fingerprints match" s ->
      Substring "OS detection performed" s ->
        kind (classify s) = InconclusiveDetection
        /\ parse_os_fingerprint s
           = "[warning]OS detection performed, but inconclusive[/warning]")
  /\ (~ Substring "No exact OS matches" s ->
      ~ Substring "Too many fingerprints match" s ->
      ~ Substring "OS detection performed" s ->
        kind (classify s) = Unparseable
        /\ parse_os_fingerprint s = "[danger]Could not parse OS fingerprint[/danger]").
Proof.
  intros Hs Hos Hrun.
  rewrite parse_render, classify_decide by exact Hs. unfold decide.
  rewrite (proj2 (first_match_none _ _) Hos), (proj2 (first_match_none _ _) Hrun).
  repeat split; intros;
    repeat match goal with
      | H : Substring _ _ |- _ => apply contains_true in H; rewrite H
      | H : ~ Substring _ _ |- _ => apply contains_false in H; rewrite H
      end; reflexivity.
Qed.

(** The parser never leaves the seven outcomes, and tells the empty and the
    unmatched text apart from the rest. *)
Lemma kind_empty_iff (s : string) : kind (classify s) = Empty <-> s = "".
Proof.
  split; [|intros ->; reflexivity].
  destruct s as [|c s]; [reflexivity|]. intros H. exfalso. revert H.
  rewrite classify_decide by discriminate. unfold decide.
  destruct (first_match "OS details: " _); [discriminate|].
  destruct (first_match "Running: " _); [discriminate|].
  destruct (contains "No exact OS matches" _); [discriminate|].
  destruct (contains "Too many fingerprints match" _); [discriminate|].
  destruct (contains "OS detection performed" _); discriminate.
Qed.

Lemma kind_unparseable_iff (s : string) :
  kind (classify s) = Unparseable <-> unmatched s.
Proof.
  unfold unmatched. destruct s as [|c s].
  - split; [discriminate | intros (H & _); contradiction].
  - rewrite classify_decide by discriminate. unfold decide.
    rewrite <- !first_match_none, <- !contains_false.
    destruct (first_match "OS details: " _);
      [split; [discriminate | intros (_ & H & _); discriminate]|].
    destruct (first_match "Running: " _);
      [split; [discriminate | intros (_ & _ & H & _); discriminate]|].
    destruct (contains "No exact OS matches" _);
      [split; [discriminate | intros (_ & _ & _ & H & _); discriminate]|].
    destruct (contains "Too many fingerprints match" _);
      [split; [discriminate | intros (_ & _ & _ & _ & H & _); discriminate]|].
    destruct (contains "OS detection performed" _);
      [split; [discriminate | intros (_ & _ & _ & _ & _ & H); discriminate]|].
    split; [intros _; repeat split; discriminate | reflexivity].
Qed.

(** [C3], as the program has it.  [classify] is defined on every string and
    its outcome is one of the seven kinds; the empty text, and no other, is
    [Empty], with the text [No output received]; a non-empty text that
    matches nothing, and no other, is [Unparseable], with the text
    [Could not parse OS fingerprint]; both are printed under the [danger]
    tag. *)
Theorem classify_total (s : string) :
  In (kind (classify s))
     [ExactMatch; GuessedMatch; NoExactMatch; TooManyMatches;
      InconclusiveDetection; Unparseable; Empty]
  /\ parse_os_fingerprint s = render (classify s)
  /\ (s = "" <-> classify s = mkFingerprint Empty "No output received")
  /\ (s = "" -> parse_os_fingerprint s = "[danger]No output received[/danger]")
  /\ (unmatched s <->
      classify s = mkFingerprint Unparseable "Could not parse OS fingerprint")
  /\ (unmatched s ->
      parse_os_fingerprint s = "[danger]Could not parse OS fingerprint[/danger]").
Proof.
  split; [destruct (kind (classify s)); simpl; tauto|].
  split; [apply parse_render|].
  split.
  { split; [intros ->; reflexivity|]. intros H. apply kind_empty_iff.
    now rewrite H. }
  split; [intros ->; reflexivity|].
  assert (Hun : unmatched s ->
            classify s = mkFingerprint Unparseable "Could not parse OS fingerprint").
  { intros H. pose proof H as (Hs & Hos & Hrun & H1 & H2 & H3).
    rewrite classify_decide by exact Hs. unfold decide.
    rewrite (proj2 (first_match_none _ _) Hos), (proj2 (first_match_none _ _) Hrun).
    rewrite (proj2 (contains_false _ _) H1), (proj2 (contains_false _ _) H2),
      (proj2 (contains_false _ _) H3). reflexivity. }
  split.
  - split; [exact Hun|]. intros H. apply kind_unparseable_iff. now rewrite H.
  - intros H. rewrite parse_render, (Hun H). reflexivity.
Qed.

(** [C9], as the program has it.  The patterns are searched anywhere in the
    text: when [OS details: ] occurs at any offset before a character that
    is not a line feed the outcome is [ExactMatch]; when it does not and
    [Running: ] so occurs the outcome is [GuessedMatch]; in both cases the
    detail is non-empty and holds no line feed. *)
Theorem patterns_unanchored (s : string) :
  (Occurs "OS details: " s ->
     kind (classify s) = ExactMatch
     /\ detail (classify s) <> "" /\ one_line (detail (classify s)))
  /\ (~ Occurs "OS details: " s -> Occurs "Running: " s ->
        kind (classify s) = GuessedMatch
        /\ detail (classify s) <> "" /\ one_line (detail (classify s))).
Proof.
  split.
  - intros H. pose proof (occurs_nonempty _ _ H) as Hs.
    destruct (occurs_first_match _ _ H) as (cap & E).
    rewrite classify_decide by exact Hs. unfold decide. rewrite E. simpl.
    split; [reflexivity | exact (first_match_shape _ _ _ E)].
  - intros Hno H. pose proof (occurs_nonempty _ _ H) as Hs.
    destruct (occurs_first_match _ _ H) as (cap & E).
    rewrite classify_decide by exact Hs. unfold decide.
    rewrite (proj2 (first_match_none _ _) Hno), E. simpl.
    split; [reflexivity | exact (first_match_shape _ _ _ E)].
Qed.

End ClassifierFacts.

(* ================================================================== *)
(** ** The session: mappings, the scan batch *)
(* ================================================================== *)

Module SessionFacts.
Import PyText PyTextFacts Classifier ClassifierFacts Session.

(** *** The insertion-ordered mapping *)



Lemma existsb_eqb_In (t : string) (l : list string) :
  existsb (String.eqb t) l = true <-> In t l.
Proof.
  rewrite existsb_exists. split.
  - intros (x & Hin & Heq). apply String.eqb_eq in Heq. now subst.
  - intros Hin. exists t. split; [exact Hin | apply String.eqb_refl].
Qed.

Lemma keys_dict_set (k v : string) (d : dict) :
  keys (dict_set k v d) = note (keys d) k.
Proof.
  unfold note, keys. induction d as [|[k' v'] d IH]; simpl; [reflexivity|].
  destruct (String.eqb k k') eqn:E; simpl; [reflexivity|].
  rewrite IH. destruct (existsb (String.eqb k) (map fst d)); reflexivity.
Qed.


(** *** First occurrences *)

Lemma note_In (seen : list string) (t x : string) :
  In x (note seen t) <-> In x seen \/ x = t.
Proof.
  unfold note. destruct (existsb (String.eqb t) seen) eqn:E.
  - apply existsb_eqb_In in E. split; [now left | intros [H| ->]; assumption].
  - rewrite in_app_iff. simpl. split; intros [H|H]; auto.
    + destruct H as [H|[]]; auto.
Qed.

Lemma note_NoDup (seen : list string) (t : string) :
  NoDup seen -> NoDup (note seen t).
Proof.
  unfold note. intros H. destruct (existsb (String.eqb t) seen) eqn:E; [exact H|].
  assert (Hnot : ~ In t seen).
  { intros Hin. apply existsb_eqb_In in Hin. congruence. }
  clear E. induction H as [|x l Hx Hl IH]; simpl.
  - constructor; [intros [] | constructor].
  - constructor.
    + rewrite in_app_iff. simpl. intros [H|[H|[]]]; [contradiction|].
      apply Hnot. now left.
    + apply IH. intros H. apply Hnot. now right.
Qed.

Lemma fold_note_In (l seen : list string) (x : string) :
  In x (fold_left note l seen) <-> In x seen \/ In x l.
Proof.
  revert seen. induction l as [|t l IH]; intros seen; simpl.
  - tauto.
  - rewrite IH, note_In. intuition.
Qed.

Lemma fold_note_NoDup (l seen : list string) :
  NoDup seen -> NoDup (fold_left note l seen).
Proof.
  revert seen. induction l as [|t l IH]; intros seen H; simpl;
    [exact H | apply IH, note_NoDup, H].
Qed.

Lemma fold_note_fresh (l seen : list string) :
  NoDup (seen ++ l)%list -> fold_left note l seen = (seen ++ l)%list.
Proof.
  revert seen. induction l as [|t l IH]; intros seen H; simpl.
  - now rewrite app_nil_r.
  - assert (Hnot : ~ In t seen).
    { intros Hin. apply NoDup_remove_2 in H. apply H.
      rewrite in_app_iff. now left. }
    unfold note at 2. destruct (existsb (String.eqb t) seen) eqn:E.
    + apply existsb_eqb_In in E. contradiction.
    + rewrite IH; rewrite <- app_assoc; simpl; [reflexivity | exact H].
Qed.

Lemma fold_note_snoc (l seen : list string) (x : string) :
  fold_left note (l ++ [x])%list seen = note (fold_left note l seen) x.
Proof. now rewrite fold_left_app. Qed.

Lemma first_occurrences_In (l : list string) (x : string) :
  In x (first_occurrences l) <-> In x l.
Proof. unfold first_occurrences. rewrite fold_note_In. simpl. tauto. Qed.

Lemma first_occurrences_NoDup (l : list string) : NoDup (first_occurrences l).
Proof. apply fold_note_NoDup. constructor. Qed.

Lemma first_occurrences_id (l : list string) :
  NoDup l -> first_occurrences l = l.
Proof. intros H. unfold first_occurrences. now rewrite fold_note_fresh. Qed.


Lemma occurrences_app (l1 l2 : list string) (t : string) :
  occurrences t (l1 ++ l2)%list = occurrences t l1 + occurrences t l2.
Proof. unfold occurrences. now rewrite filter_app, length_app. Qed.

(** *** Reading the console back *)

Lemma scans_app (l1 l2 : list event) :
  scans (l1 ++ l2)%list = (scans l1 ++ scans l2)%list.
Proof. apply flat_map_app. Qed.

Lemma report_entries_app (l1 l2 : list event) :
  report_entries (l1 ++ l2)%list = (report_entries l1 ++ report_entries l2)%list.
Proof. apply flat_map_app. Qed.

(** *** The scan batch *)

Section BatchFacts.

Variable subprocess_run : nat -> list string -> proc.
Variables nmap_path nmap_args : string.

Local Abbreviation child := (child subprocess_run nmap_path nmap_args).
Local Abbreviation raw_text := (raw_text subprocess_run nmap_path nmap_args).
Local Abbreviation batch_runs := (batch_runs subprocess_run nmap_path nmap_args).
Local Abbreviation batch_results := (batch_results subprocess_run nmap_path nmap_args).
Local Abbreviation pass_trace := (pass_trace subprocess_run nmap_path nmap_args).
Local Abbreviation batch_trace := (batch_trace subprocess_run nmap_path nmap_args).
Local Abbreviation scan_one := (scan_one subprocess_run nmap_path nmap_args).
Local Abbreviation scan_loop := (scan_loop subprocess_run nmap_path nmap_args).
Local Abbreviation cmd := (nmap_command nmap_path nmap_args).

Lemma scan_one_eq (t : string) (results : dict) (w : world) :
  scan_one t results w =
  (match child (spawned w) t with
   | RunRaises e => Raise e
   | _ => Ret (dict_set t (raw_text (spawned w) t) results)
   end,
   mkWorld (answers w) (console w ++ pass_trace (spawned w) t) (S (spawned w))).
Proof.
  unfold scan_one, Session.pass_trace, Session.raw_text, Session.child, bind,
    console_print, emit, run_child, ret, raise. simpl.
  destruct (subprocess_run (spawned w) (cmd t)) as [out err rc| |e]; simpl.
  - destruct (Z.eqb rc 0); simpl; rewrite <- ?app_assoc; reflexivity.
  - rewrite <- ?app_assoc. reflexivity.
  - rewrite <- ?app_assoc. reflexivity.
Qed.

Lemma scan_loop_eq (targets : list string) :
  forall (results : dict) (w : world),
    batch_runs (spawned w) targets = true ->
    scan_loop targets results w =
    (Ret (batch_results (spawned w) targets results),
     mkWorld (answers w) (console w ++ batch_trace (spawned w) targets)
       (spawned w + List.length targets)).
Proof.
  induction targets as [|t rest IH]; intros results w Hruns.
  - simpl. unfold ret. rewrite app_nil_r, Nat.add_0_r. now destruct w.
  - cbn [Session.batch_runs] in Hruns.
    cbn [Session.scan_loop Session.batch_results Session.batch_trace].
    unfold bind. rewrite scan_one_eq.
    destruct (child (spawned w) t) as [out err rc| |e] eqn:C;
      cbn [recorded] in Hruns; try discriminate;
      rewrite IH by exact Hruns; cbn [answers console spawned];
      rewrite <- app_assoc;
      replace (spawned w + List.length (t :: rest))
        with (S (spawned w) + List.length rest) by (cbn [List.length]; lia);
      reflexivity.
Qed.

(** A launch failure, on the other hand, leaves the loop at once. *)
Lemma scan_loop_raises (t : string) (rest : list string) (results : dict)
  (w : world) (e : exn) :
  child (spawned w) t = RunRaises e ->
  fst (scan_loop (t :: rest) results w) = Raise e.
Proof.
  intros H. simpl. unfold bind. rewrite scan_one_eq, H. reflexivity.
Qed.

Lemma scan_loop_ret (targets : list string) :
  forall (results r : dict) (w w' : world),
    scan_loop targets results w = (Ret r, w') ->
    batch_runs (spawned w) targets = true.
Proof.
  induction targets as [|t rest IH]; intros results r w w' H; [reflexivity|].
  cbn [Session.scan_loop] in H. cbn [Session.batch_runs].
  unfold bind in H. rewrite scan_one_eq in H.
  destruct (child (spawned w) t) as [out err rc| |e] eqn:C;
    cbn [recorded]; try discriminate;
    apply IH in H; exact H.
Qed.



Lemma batch_trace_app (l1 l2 : list string) (n : nat) :
  batch_trace n (l1 ++ l2)%list
  = (batch_trace n l1 ++ batch_trace (n + List.length l1) l2)%list.
Proof.
  revert n. induction l1 as [|t l1 IH]; intros n; simpl.
  - now rewrite Nat.add_0_r.
  - now rewrite IH, Nat.add_succ_r, <- !app_assoc.
Qed.



Lemma report_pass_trace (n : nat) (t : string) :
  report_entries (pass_trace n t) = [].
Proof.
  unfold Session.pass_trace. simpl.
  destruct (Session.child _ _ _ n t) as [out err rc| |e]; simpl;
    [destruct (Z.eqb rc 0)|..]; reflexivity.
Qed.

Lemma report_batch_trace (targets : list string) (n : nat) :
  report_entries (batch_trace n targets) = [].
Proof.
  revert n. induction targets as [|t rest IH]; intros n; [reflexivity|].
  cbn [Session.batch_trace].
  now rewrite report_entries_app, report_pass_trace, IH.
Qed.

Lemma keys_batch_results (targets : list string) (n : nat) (r : dict) :
  keys (batch_results n targets r) = fold_left note targets (keys r).
Proof.
  revert n r. induction targets as [|t rest IH]; intros n r; simpl;
    [reflexivity | now rewrite IH, keys_dict_set].
Qed.








End BatchFacts.

(** *** Target selection *)

Section SelectionFacts.

Variable gethostbyname : string -> lookup.

Local Abbreviation resolve_host := (resolve_host gethostbyname).
Local Abbreviation target_step := (target_step gethostbyname).
Local Abbreviation target_loop := (target_loop gethostbyname).
Local Abbreviation after_iterations := (after_iterations gethostbyname).
Local Abbreviation resolved_from := (resolved_from gethostbyname).
Local Abbreviation interactive_target_selection :=
  (interactive_target_selection gethostbyname).

Lemma resolve_host_cases (x : string) :
  match gethostbyname x with
  | Resolved ip => resolve_host x = Ret (Some ip)
  | Gaierror => resolve_host x = Ret None
  | LookupRaises e => resolve_host x = Raise e
  end.
Proof. unfold Session.resolve_host. destruct (gethostbyname x); reflexivity. Qed.

(** What one pass of the entry loop can do. *)
Lemma target_step_Continue (a : string) (targets targets' : list string)
  (out out' : list event) :
  target_step a targets out = Continue targets' out' ->
  (exists m, out' = (out ++ [Print m])%list)
  /\ (targets' = targets
      \/ exists ip, gethostbyname (strip a) = Resolved ip
                    /\ targets' = (targets ++ [ip])%list).
Proof.
  unfold Session.target_step, Session.resolve_host.
  destruct (negb (truthy (strip a))); [discriminate|].
  destruct (gethostbyname (strip a)) as [ip| |e]; [| |discriminate].
  - destruct ip as [|c ip]; intros H; inversion H; subst.
    + split; [eexists; reflexivity | now left].
    + split; [eexists; reflexivity | right; now exists (String c ip)].
  - intros H; inversion H; subst. split; [eexists; reflexivity | now left].
Qed.


Lemma target_step_keeps (asked : list action) (a : string)
  (targets targets' : list string) (out out' : list event) :
  In (Answer a) asked ->
  Forall (resolved_from asked) targets ->
  target_step a targets out = Continue targets' out' ->
  Forall (resolved_from asked) targets'.
Proof.
  intros Hin Hinv H. apply target_step_Continue in H.
  destruct H as [_ [->|(ip & Hip & ->)]]; [exact Hinv|].
  apply Forall_app. split; [exact Hinv|].
  constructor; [|constructor]. now exists a.
Qed.

Lemma after_iterations_keeps (asked : list action) (n : nat) :
  forall (pending : list action) (targets ts : list string)
         (out out' : list event),
    incl pending asked ->
    Forall (resolved_from asked) targets ->
    after_iterations n pending targets out = Some (ts, out') ->
    Forall (resolved_from asked) ts.
Proof.
  induction n as [|n IH]; intros pending targets ts out out' Hincl Hinv H;
    cbn [Session.after_iterations] in H.
  - now inversion H; subst.
  - destruct pending as [|[a|] rest]; try discriminate.
    destruct (target_step a targets out) as [|targets1 out1|e] eqn:E;
      try discriminate.
    apply (IH rest targets1 ts out1 out').
    + intros x Hx. apply Hincl. now right.
    + apply (target_step_keeps asked a targets targets1 out out1);
        [apply Hincl; now left | exact Hinv | exact E].
    + exact H.
Qed.

Lemma target_loop_keeps (asked : list action) (pending : list action) :
  forall (targets ts : list string) (out out' : list event)
         (rest : list action),
    incl pending asked ->
    Forall (resolved_from asked) targets ->
    target_loop pending targets out = (Ret ts, rest, out') ->
    Forall (resolved_from asked) ts.
Proof.
  induction pending as [|[a|] pending IH];
    intros targets ts out out' rest Hincl Hinv H;
    cbn [Session.target_loop] in H; try discriminate.
  destruct (target_step a targets out) as [|targets1 out1|e] eqn:E.
  - now inversion H; subst.
  - apply (IH targets1 ts out1 out' rest).
    + intros x Hx. apply Hincl. now right.
    + apply (target_step_keeps asked a targets targets1 out out1);
        [apply Hincl; now left | exact Hinv | exact E].
    + exact H.
  - discriminate.
Qed.

(** The states counted by [after_iterations] are those the loop goes
    through. *)
Lemma target_loop_after (n : nat) :
  forall (pending : list action) (targets ts : list string)
         (out out' : list event),
    after_iterations n pending targets out = Some (ts, out') ->
    target_loop pending targets out = target_loop (skipn n pending) ts out'.
Proof.
  induction n as [|n IH]; intros pending targets ts out out' H;
    cbn [Session.after_iterations] in H.
  - now inversion H; subst.
  - destruct pending as [|[a|] rest]; try discriminate.
    destruct (target_step a targets out) as [|targets1 out1|e] eqn:E;
      try discriminate.
    cbn [Session.target_loop skipn]. rewrite E. now apply IH.
Qed.

(** The entry loop prints messages and does nothing else. *)
Lemma target_loop_quiet (pending : list action) :
  forall (targets : list string) (out out' : list event)
         (r : result (list string)) (rest : list action),
    target_loop pending targets out = (r, rest, out') ->
    report_entries out' = report_entries out /\ scans out' = scans out.
Proof.
  induction pending as [|[a|] pending IH]; intros targets out out' r rest H;
    cbn [Session.target_loop] in H.
  - now inversion H; subst.
  - destruct (target_step a targets out) as [|targets1 out1|e] eqn:E.
    + now inversion H; subst.
    + apply IH in H. apply target_step_Continue in E.
      destruct E as [(m & ->) _].
      rewrite report_entries_app, scans_app in H. simpl in H.
      now rewrite !app_nil_r in H.
    + now inversion H; subst.
  - now inversion H; subst.
Qed.

Lemma selection_quiet (w w' : world) (r : result (list string)) :
  interactive_target_selection w = (r, w') ->
  report_entries (console w') = report_entries (console w)
  /\ scans (console w') = scans (console w)
  /\ spawned w' = spawned w.
Proof.
  unfold Session.interactive_target_selection.
  destruct (target_loop (answers w) [] (console w)) as [[r0 rest] out] eqn:E.
  intros H. inversion H; subst. cbn [console spawned].
  apply target_loop_quiet in E. tauto.
Qed.

(** [C8].  Every element of the working set is an address that the name
    service returned for one of the operator's answers: this holds after
    any number of passes through the entry loop, and of the list that
    [interactive_target_selection] returns. *)
Theorem working_set_resolved (w : world) :
  (forall n ts out,
      after_iterations n (answers w) [] (console w) = Some (ts, out) ->
      Forall (resolved_from (answers w)) ts)
  /\ (forall ts w',
        interactive_target_selection w = (Ret ts, w') ->
        Forall (resolved_from (answers w)) ts).
Proof.
  split.
  - intros n ts out H.
    apply (after_iterations_keeps (answers w) n (answers w) [] ts (console w) out);
      [apply incl_refl | constructor | exact H].
  - intros ts w' H. unfold Session.interactive_target_selection in H.
    destruct (target_loop (answers w) [] (console w)) as [[r rest] out] eqn:E.
    inversion H; subst.
    apply (target_loop_keeps (answers w) (answers w) [] ts (console w) out rest);
      [apply incl_refl | constructor | exact E].
Qed.

End SelectionFacts.

(** *** The whole session *)

Section MainFacts.

Variable gethostbyname : string -> lookup.
Variable subprocess_run : nat -> list string -> proc.
Variable config_file : option dict.
Variable HAS_3D : bool.

Local Abbreviation interactive_target_selection :=
  (interactive_target_selection gethostbyname).
Local Abbreviation run_nmap_scan := (run_nmap_scan subprocess_run).
Local Abbreviation scan_and_report := (scan_and_report subprocess_run HAS_3D).
Local Abbreviation main := (main gethostbyname subprocess_run config_file HAS_3D).
Local Abbreviation entry_point :=
  (entry_point gethostbyname subprocess_run config_file HAS_3D).

(** [main] up to the end of target selection. *)
Lemma main_unfold (w : world) :
  main w =
  match interactive_target_selection (greeted config_file w) with
  | (Ret targets, w1) =>
      if negb (nonempty targets)
      then (Raise (SystemExit 1),
            mkWorld (answers w1) (console w1 ++ [no_targets_message]) (spawned w1))
      else scan_and_report (configured_nmap_path config_file) targets w1
  | (Raise e, w1) => (Raise e, w1)
  end.
Proof.
  unfold Session.main, greeted, configured_nmap_path, load_config, bind,
    console_print, emit, ret, raise.
  destruct config_file as [config|]; cbn [answers console spawned];
    rewrite <- !app_assoc; cbn [app];
    destruct (interactive_target_selection _) as [[targets|e] w1];
    try reflexivity; destruct (negb (nonempty targets)); reflexivity.
Qed.

Lemma select_scan_mode_quiet (w w' : world) (r : result (string * string)) :
  select_scan_mode w = (r, w') ->
  report_entries (console w') = report_entries (console w)
  /\ scans (console w') = scans (console w) /\ spawned w' = spawned w.
Proof.
  unfold select_scan_mode, bind, emit. cbn [answers console spawned].
  destruct (mode_loop (answers w)) as [r0 rest]. intros H. inversion H; subst.
  cbn [console spawned]. rewrite report_entries_app, scans_app. simpl.
  now rewrite !app_nil_r.
Qed.

Lemma report_loop_eq (items : dict) :
  forall (fingerprints : dict) (w : world),
    exists fingerprints',
      report_loop items fingerprints w =
      (Ret fingerprints',
       mkWorld (answers w)
         (console w ++ map (fun it => ReportPanel (fst it)
                                        (parse_os_fingerprint (snd it))) items)
         (spawned w)).
Proof.
  induction items as [|[t o] items IH]; intros fingerprints w.
  - exists fingerprints. cbn [report_loop map]. unfold ret.
    rewrite app_nil_r. now destruct w.
  - cbn [report_loop]. unfold bind, emit.
    destruct (IH (dict_set t (parse_os_fingerprint o) fingerprints)
                (mkWorld (answers w)
                   (console w ++ [ReportPanel t (parse_os_fingerprint o)])
                   (spawned w))) as (fp & ->).
    exists fp. cbn [answers console spawned map fst snd].
    now rewrite <- app_assoc.
Qed.

Lemma report_entries_panels (items : dict) :
  report_entries (map (fun it => ReportPanel (fst it)
                                   (parse_os_fingerprint (snd it))) items)
  = map report_panel items.
Proof.
  induction items as [|[t o] items IH]; [reflexivity|].
  cbn [map]. unfold report_entries in *. cbn [flat_map]. now rewrite IH.
Qed.

(** What is left of [main] after the report prints no panel. *)
Lemma closing_quiet (fingerprints : dict) (w w' : world) (r : result unit) :
  ((if HAS_3D
    then choice <- prompt_ask ;;
         if String.eqb choice "y"
         then plot_3d_network_map HAS_3D fingerprints else ret tt
    else ret tt) ;;
   console_print "[success]Scan complete. Stay ethical![/success]") w = (r, w') ->
  report_entries (console w') = report_entries (console w).
Proof.
  unfold bind, prompt_ask, plot_3d_network_map, console_print, emit, ret.
  destruct HAS_3D; cbn [negb].
  - destruct (answers w) as [|[choice|] rest]; intros H.
    + now inversion H; subst.
    + destruct (String.eqb choice "y"); inversion H; subst;
        cbn [console]; rewrite !report_entries_app; simpl;
        now rewrite !app_nil_r.
    + now inversion H; subst.
  - intros H. inversion H; subst. cbn [console].
    rewrite report_entries_app. simpl. now rewrite app_nil_r.
Qed.

(** A session that runs to completion printed one panel per key of the
    result mapping, in the order of the mapping. *)
Lemma scan_and_report_ret (nmap_path : string) (targets : list string)
  (w w' : world) :
  scan_and_report nmap_path targets w = (Ret tt, w') ->
  exists nmap_args results w1 w2,
    run_nmap_scan nmap_path targets nmap_args w1 = (Ret results, w2)
    /\ keys results = first_occurrences targets
    /\ report_entries (console w')
       = (report_entries (console w) ++ map report_panel results)%list.
Proof.
  unfold Session.scan_and_report. unfold bind at 1.
  destruct (select_scan_mode w) as [[[scanmode nmap_args]|e] w0] eqn:Esel;
    [|discriminate].
  apply select_scan_mode_quiet in Esel. destruct Esel as (Hsel & _ & _).
  unfold bind at 1. unfold console_print at 1, emit at 1.
  unfold bind at 1.
  match goal with
  | |- context [run_nmap_scan nmap_path targets nmap_args ?W] => set (w1 := W)
  end.
  destruct (run_nmap_scan nmap_path targets nmap_args w1)
    as [[results|e] w2] eqn:Escan; [|discriminate].
  unfold bind at 1.
  destruct (report_loop_eq results [] w2) as (fp & ->).
  intros H. apply closing_quiet in H. cbn [console] in H.
  exists nmap_args, results, w1, w2. split; [exact Escan|].
  unfold Session.run_nmap_scan in Escan.
  pose proof (scan_loop_ret _ _ _ _ _ _ _ _ Escan) as Hruns.
  rewrite scan_loop_eq in Escan by exact Hruns.
  inversion Escan; subst results w2. clear Escan.
  split.
  - rewrite keys_batch_results. reflexivity.
  - rewrite H. cbn [console]. subst w1. cbn [console spawned].
    rewrite !report_entries_app, report_entries_panels, report_batch_trace.
    rewrite Hsel. simpl. now rewrite !app_nil_r.
Qed.

(** [C7].  When target selection gathers no target, [main] prints the
    error message and leaves through [sys.exit(1)]: the process ends with
    status 1, no child process was run, and the outcome is the same
    whatever the child-process oracle. *)
Theorem no_targets_exit (w w1 : world) :
  interactive_target_selection (greeted config_file w) = (Ret [], w1) ->
  let stop := mkWorld (answers w1) (console w1 ++ [no_targets_message])
                (spawned w1) in
  main w = (Raise (SystemExit 1), stop)
  /\ entry_point w = (1%Z, stop)
  /\ fst (entry_point w) <> 0%Z
  /\ scans (console stop) = scans (console w)
  /\ spawned stop = spawned w.
Proof.
  intros Hsel stop.
  assert (Hmain : main w = (Raise (SystemExit 1), stop))
    by (rewrite main_unfold, Hsel; reflexivity).
  assert (Hentry : entry_point w = (1%Z, stop))
    by (unfold Session.entry_point; rewrite Hmain; reflexivity).
  split; [exact Hmain|]. split; [exact Hentry|].
  split; [rewrite Hentry; discriminate|].
  apply selection_quiet in Hsel. destruct Hsel as (_ & Hscans & Hspawned).
  subst stop. cbn [console spawned]. split.
  - rewrite scans_app, Hscans. unfold greeted. cbn [console].
    rewrite !scans_app. destruct config_file; simpl; now rewrite !app_nil_r.
  - rewrite Hspawned. reflexivity.
Qed.

(** [C6], as the program has it.  A session that runs to completion on a
    fresh console printed one report panel per distinct target gathered, in
    the order of first occurrence, each panel showing the parsed text that
    the result mapping holds for its target; when no target was entered
    twice this is one panel per element of the list, in the order of the
    list. *)
Theorem report_per_distinct_target (w w' : world) :
  main w = (Ret tt, w') -> report_entries (console w) = [] ->
  exists targets w1 nmap_args results wa wb,
    interactive_target_selection (greeted config_file w) = (Ret targets, w1)
    /\ targets <> []
    /\ run_nmap_scan (configured_nmap_path config_file) targets nmap_args wa
       = (Ret results, wb)
    /\ report_entries (console w') = map report_panel results
    /\ report_targets (console w') = first_occurrences targets
    /\ NoDup (report_targets (console w'))
    /\ (forall t, In t (report_targets (console w')) <-> In t targets)
    /\ (NoDup targets -> report_targets (console w') = targets).
Proof.
  intros Hmain Hfresh. rewrite main_unfold in Hmain.
  destruct (interactive_target_selection (greeted config_file w))
    as [[targets|e] w1] eqn:Hsel; [|discriminate].
  destruct targets as [|t0 targets]; [discriminate|]. cbn [nonempty negb] in Hmain.
  apply scan_and_report_ret in Hmain.
  destruct Hmain as (nmap_args & results & wa & wb & Hscan & Hkeys & Hrep).
  apply selection_quiet in Hsel as Hquiet. destruct Hquiet as (Hq & _ & _).
  assert (Hw1 : report_entries (console w1) = []).
  { rewrite Hq. unfold greeted. cbn [console].
    rewrite !report_entries_app, Hfresh. destruct config_file; reflexivity. }
  rewrite Hw1 in Hrep. cbn [app] in Hrep.
  assert (Htargets : report_targets (console w') = first_occurrences (t0 :: targets)).
  { unfold report_targets. rewrite Hrep, map_map. cbn [report_panel fst].
    exact Hkeys. }
  exists (t0 :: targets), w1, nmap_args, results, wa, wb.
  split; [reflexivity|]. split; [discriminate|]. split; [exact Hscan|].
  split; [exact Hrep|]. split; [exact Htargets|]. rewrite Htargets.
  split; [apply first_occurrences_NoDup|].
  split; [intros t; apply first_occurrences_In | apply first_occurrences_id].
Qed.

End MainFacts.

End SessionFacts.

(* ================================================================== *)
(** ** The model at work on concrete sessions *)
(* ================================================================== *)

Module Scenarios.
Import PyText PyTextFacts Classifier ClassifierFacts Session SessionFacts.

(** The four end-to-end scenarios of the parser. *)
Example scenario_guess :
  parse_os_fingerprint "Running: Linux 3.2 - 4.9" = "[os]Linux 3.2 - 4.9[/os]"
  /\ classify "Running: Linux 3.2 - 4.9"
     = mkFingerprint GuessedMatch "Linux 3.2 - 4.9".
Proof. split; reflexivity. Qed.

Example scenario_exact :
  classify exact_then_guess = mkFingerprint ExactMatch "Linux 5.0 - 5.4".
Proof. reflexivity. Qed.

Example scenario_empty :
  parse_os_fingerprint "" = "[danger]No output received[/danger]".
Proof. reflexivity. Qed.

Example scenario_too_many :
  kind (classify "Too many fingerprints match this host") = TooManyMatches.
Proof. reflexivity. Qed.

(** [C4].  [resolve_host] turns a resolved name into its address and a
    failed look-up into [None], but an error of another class (here the one
    raised for a name with an empty label) passes through it, and through
    the entry loop, to the handler of the entry point: the session ends
    there, with the targets entered so far never scanned. *)
Theorem resolve_host_lets_other_errors_through :
  let e := Exception
             "encoding with 'idna' codec failed (UnicodeError: label empty or too long)" in
  resolve_host demo_gethostbyname "127.0.0.1" = Ret (Some "127.0.0.1")
  /\ resolve_host demo_gethostbyname "no-such-host.invalid" = Ret None
  /\ resolve_host demo_gethostbyname "a..b" = Raise e
  /\ fst (interactive_target_selection demo_gethostbyname empty_label) = Raise e
  /\ fst (main demo_gethostbyname demo_subprocess_run None false empty_label)
     = Raise e
  /\ scans (console (snd (entry_point demo_gethostbyname demo_subprocess_run
                            None false empty_label))) = [].
Proof. repeat split; reflexivity. Qed.

(** *** Instances of the theorems *)

Lemma first_capture_at_start (lit cap rest : string) :
  cap <> "" -> one_line cap -> at_line_end rest ->
  FirstCapture lit (lit ++ cap ++ rest) cap.
Proof.
  intros Hne Hone Hend. exists "", rest. simpl.
  repeat split; try assumption. intros pre' _. lia.
Defined.

Lemma exact_match_wins_witness :
  classify exact_then_guess = mkFingerprint ExactMatch "Linux 5.0 - 5.4"
  /\ classify "Running: Linux 3.2 - 4.9"
     = mkFingerprint GuessedMatch "Linux 3.2 - 4.9".
Proof.
  split.
  - apply (proj1 (exact_match_wins exact_then_guess) "Linux 5.0 - 5.4").
    apply (first_capture_at_start "OS details: " "Linux 5.0 - 5.4"
             (String newline "Running: Linux 3.2")).
    + discriminate.
    + simpl. repeat split; discriminate.
    + right. eexists. reflexivity.
  - apply (proj1 (proj2 (exact_match_wins "Running: Linux 3.2 - 4.9"))
             "Linux 3.2 - 4.9").
    + apply first_match_none. vm_compute. reflexivity.
    + apply (first_capture_at_start "Running: " "Linux 3.2 - 4.9" "").
      * discriminate.
      * simpl. repeat split; discriminate.
      * now left.
Defined.

Lemma substring_priority_witness :
  kind (classify "Too many fingerprints match; No exact OS matches for host")
  = NoExactMatch.
Proof.
  assert (Hs : "Too many fingerprints match; No exact OS matches for host" <> "")
    by discriminate.
  assert (Hos : ~ Occurs "OS details: "
                    "Too many fingerprints match; No exact OS matches for host")
    by (apply first_match_none; vm_compute; reflexivity).
  assert (Hrun : ~ Occurs "Running: "
                    "Too many fingerprints match; No exact OS matches for host")
    by (apply first_match_none; vm_compute; reflexivity).
  assert (Hsub : Substring "No exact OS matches"
                   "Too many fingerprints match; No exact OS matches for host")
    by (exists "Too many fingerprints match; ", " for host"; reflexivity).
  exact (proj1 (proj1 (substring_priority _ Hs Hos Hrun) Hsub)).
Defined.

Lemma classify_total_witness :
  parse_os_fingerprint "" = "[danger]No output received[/danger]"
  /\ parse_os_fingerprint "Note: Host seems down."
     = "[danger]Could not parse OS fingerprint[/danger]".
Proof.
  split.
  - destruct (classify_total "") as (_ & _ & _ & H & _). exact (H eq_refl).
  - assert (Hun : unmatched "Note: Host seems down.").
    { repeat split; try discriminate;
        try (apply first_match_none; vm_compute; reflexivity);
        apply contains_false; vm_compute; reflexivity. }
    destruct (classify_total "Note: Host seems down.") as (_ & _ & _ & _ & _ & H).
    exact (H Hun).
Defined.

Lemma patterns_unanchored_witness :
  kind (classify "Host is up. OS details: Linux 5.0") = ExactMatch
  /\ kind (classify guess_mid_line) = GuessedMatch
  /\ one_line (detail (classify guess_mid_line)).
Proof.
  split.
  - assert (H : Occurs "OS details: " "Host is up. OS details: Linux 5.0").
    { exists "Host is up. ", "L"%char, "inux 5.0".
      split; [reflexivity | discriminate]. }
    exact (proj1 (proj1 (patterns_unanchored _) H)).
  - assert (H : ~ Occurs "OS details: " guess_mid_line)
      by (apply first_match_none; vm_compute; reflexivity).
    assert (H' : Occurs "Running: " guess_mid_line).
    { exists "Host is up. ", "L"%char, ("inux 3.2 - 4.9" ++ String newline "done").
      split; [reflexivity | discriminate]. }
    destruct (proj2 (patterns_unanchored guess_mid_line) H H') as (Hk & _ & Hl).
    split; assumption.
Defined.



Lemma working_set_resolved_witness :
  Forall (resolved_from demo_gethostbyname (answers twice_the_same))
    ["10.0.0.1"; "10.0.0.1"].
Proof.
  apply (proj2 (working_set_resolved demo_gethostbyname twice_the_same)
           ["10.0.0.1"; "10.0.0.1"]
           (snd (interactive_target_selection demo_gethostbyname twice_the_same))).
  reflexivity.
Defined.

Lemma no_targets_exit_witness :
  fst (entry_point demo_gethostbyname demo_subprocess_run None false
         nothing_resolves) = 1%Z.
Proof.
  pose proof (no_targets_exit demo_gethostbyname demo_subprocess_run None false
                nothing_resolves
                (snd (interactive_target_selection demo_gethostbyname
                        (greeted None nothing_resolves)))
                eq_refl) as H.
  cbv zeta in H. destruct H as (_ & H & _). rewrite H. reflexivity.
Defined.

Lemma report_per_distinct_target_witness :
  report_targets
    (console (snd (main demo_gethostbyname demo_subprocess_run None false
                     twice_the_same)))
  = first_occurrences ["10.0.0.1"; "10.0.0.1"].
Proof.
  destruct (report_per_distinct_target demo_gethostbyname demo_subprocess_run
              None false twice_the_same
              (snd (main demo_gethostbyname demo_subprocess_run None false
                      twice_the_same))
              eq_refl eq_refl)
    as (targets & w1 & nmap_args & results & wa & wb & Hsel & _ & _ & _ & H & _).
  rewrite H. f_equal.
  assert (E : fst (interactive_target_selection demo_gethostbyname
                     (greeted None twice_the_same))
              = Ret ["10.0.0.1"; "10.0.0.1"]) by reflexivity.
  rewrite Hsel in E. simpl in E. now inversion E.
Defined.

(** *** Where the program departs from a stronger reading *)

(** The texts for the empty and the unmatched output are capitalised. *)
Lemma detail_is_capitalised :
  classify "" <> mkFingerprint Empty "no output received"
  /\ detail (classify "") = "No output received"
  /\ classify "?" <> mkFingerprint Unparseable "could not parse OS fingerprint"
  /\ detail (classify "?") = "Could not parse OS fingerprint".
Proof. repeat split; try reflexivity; discriminate. Qed.

(** A [Running: ] occurrence does not make the outcome [GuessedMatch] when
    an [OS details: ] line is there as well. *)
Lemma running_occurrence_not_guessed :
  Occurs "Running: " exact_then_guess
  /\ kind (classify exact_then_guess) <> GuessedMatch.
Proof.
  split; [|discriminate].
  exists ("OS details: Linux 5.0 - 5.4" ++ String newline ""), "L"%char, "inux 3.2".
  split; [reflexivity | discriminate].
Qed.

(** An address entered twice is scanned twice and reported once. *)
Lemma duplicate_target_single_panel :
  fst (interactive_target_selection demo_gethostbyname
         (greeted None twice_the_same)) = Ret ["10.0.0.1"; "10.0.0.1"]
  /\ fst (main demo_gethostbyname demo_subprocess_run None false twice_the_same)
     = Ret tt
  /\ map fst (scans (console (snd (main demo_gethostbyname demo_subprocess_run
                                     None false twice_the_same))))
     = ["10.0.0.1"; "10.0.0.1"]
  /\ report_entries
       (console (snd (main demo_gethostbyname demo_subprocess_run None false
                        twice_the_same)))
     = [("10.0.0.1", "[os]Linux 3.2 - 4.9[/os]")]
  /\ report_targets
       (console (snd (main demo_gethostbyname demo_subprocess_run None false
                        twice_the_same)))
     <> ["10.0.0.1"; "10.0.0.1"].
Proof.
  repeat split; try (vm_compute; reflexivity).
  vm_compute. discriminate.
Qed.

End Scenarios.

(* ================================================================== *)
(** ** Further properties: text *)
(* ================================================================== *)

Module TextLaws.
Import PyText PyTextFacts.

(** *** [strip] *)

Lemma lstrip_empty (s : string) : lstrip s = "" <-> all_space s = true.
Proof.
  induction s as [|c s IH]; simpl; [tauto|].
  destruct (is_space c); simpl; [exact IH|].
  split; discriminate.
Qed.




Lemma lstrip_head (s : string) :
  match lstrip s with
  | String c _ => is_space c = false
  | EmptyString => True
  end.
Proof.
  induction s as [|c s IH]; simpl; [exact I|].
  destruct (is_space c) eqn:E; [exact IH | exact E].
Qed.

Lemma lstrip_fixed (c : ascii) (s : string) :
  is_space c = false -> lstrip (String c s) = String c s.
Proof. intros H. simpl. now rewrite H. Qed.

Lemma rstrip_keeps_head (c : ascii) (s : string) :
  is_space c = false -> exists r, rstrip (String c s) = String c r.
Proof.
  intros H. simpl. destruct (rstrip s) as [|d r].
  - rewrite H. now exists "".
  - now exists (String d r).
Qed.

Lemma rstrip_idempotent (s : string) : rstrip (rstrip s) = rstrip s.
Proof.
  induction s as [|c s IH]; simpl; [reflexivity|].
  destruct (rstrip s) as [|d r] eqn:E.
  - destruct (is_space c) eqn:Ec; simpl; [reflexivity | now rewrite Ec].
  - change (rstrip (String c (String d r))) with
      (match rstrip (String d r) with
       | "" => if is_space c then "" else String c ""
       | String a' r' => String c (String a' r')
       end).
    now rewrite IH.
Qed.

Lemma strip_idempotent (s : string) : strip (strip s) = strip s.
Proof.
  unfold strip. pose proof (lstrip_head s) as Hhead.
  destruct (lstrip s) as [|c t] eqn:E; [reflexivity|].
  destruct (rstrip_keeps_head c t Hhead) as (r & Hr).
  rewrite Hr, lstrip_fixed by exact Hhead. rewrite <- Hr.
  apply rstrip_idempotent.
Qed.

(** *** [split] *)

Lemma no_space_app (a b : string) :
  no_space (a ++ b) = no_space a && no_space b.
Proof.
  induction a as [|c a IH]; simpl; [reflexivity|].
  now rewrite IH, andb_assoc.
Qed.

Lemma split_from_tokens (s : string) :
  forall cur, no_space cur = true -> Forall token (split_from s cur).
Proof.
  induction s as [|c s IH]; intros cur Hcur; simpl.
  - destruct cur; constructor; [split; [discriminate | exact Hcur] | constructor].
  - destruct (is_space c) eqn:E.
    + destruct cur as [|d cur]; [apply IH; reflexivity|].
      constructor; [split; [discriminate | exact Hcur] | apply IH; reflexivity].
    + apply IH. rewrite no_space_app, Hcur. simpl. now rewrite E.
Qed.

Lemma split_from_space (a b cur : string) (c : ascii) :
  is_space c = true ->
  split_from (a ++ String c b) cur = (split_from a cur ++ split b)%list.
Proof.
  intros Hc. revert cur. induction a as [|x a IH]; intros cur; simpl.
  - rewrite Hc. unfold split. destruct cur; reflexivity.
  - destruct (is_space x).
    + destruct cur; [apply IH | simpl; f_equal; apply IH].
    + apply IH.
Qed.

Lemma split_from_token (t : string) :
  forall cur, no_space t = true ->
    split_from t cur = match cur ++ t with "" => [] | tok => [tok] end.
Proof.
  induction t as [|c t IH]; intros cur Ht; simpl.
  - rewrite str_app_empty_r. destruct cur; reflexivity.
  - simpl in Ht. apply andb_true_iff in Ht. destruct Ht as [Hc Ht].
    apply negb_true_iff in Hc. rewrite Hc, IH by exact Ht.
    now rewrite str_app_assoc.
Qed.

Lemma split_token (t : string) : token t -> split t = [t].
Proof.
  intros [Hne Ht]. unfold split. rewrite split_from_token by exact Ht.
  simpl. destruct t; [contradiction | reflexivity].
Qed.

Lemma split_empty : split "" = [].
Proof. reflexivity. Qed.

End TextLaws.

(* ================================================================== *)
(** ** Further properties: the fingerprint parser *)
(* ================================================================== *)

Module ClassifierLaws.
Import PyText PyTextFacts Classifier ClassifierFacts.

Lemma first_match_cases (lit s : string) :
  (first_match lit s = None /\ ~ Occurs lit s)
  \/ (exists cap, first_match lit s = Some cap /\ Occurs lit s).
Proof.
  destruct (first_match lit s) as [cap|] eqn:E.
  - right. exists cap. split; [reflexivity|].
    eapply first_capture_occurs, first_match_capture, E.
  - left. split; [reflexivity | now apply first_match_none].
Qed.

Lemma contains_cases (sub s : string) :
  (contains sub s = true /\ Substring sub s)
  \/ (contains sub s = false /\ ~ Substring sub s).
Proof.
  destruct (contains sub s) eqn:E.
  - left. split; [reflexivity | now apply contains_true].
  - right. split; [reflexivity | now apply contains_false].
Qed.

(** The decision table of [parse_os_fingerprint], lines 186-200, read both
    ways: each of the five outcomes that depend on the text is returned for
    exactly the texts described, so the outcomes exclude one another and
    [ExactMatch] never needs the text before or after the matching line. *)
Theorem outcome_table (s : string) :
  (kind (classify s) = ExactMatch <-> Occurs "OS details: " s)
  /\ (kind (classify s) = GuessedMatch <->
      ~ Occurs "OS details: " s /\ Occurs "Running: " s)
  /\ (kind (classify s) = NoExactMatch <->
      ~ Occurs "OS details: " s /\ ~ Occurs "Running: " s
      /\ Substring "No exact OS matches" s)
  /\ (kind (classify s) = TooManyMatches <->
      ~ Occurs "OS details: " s /\ ~ Occurs "Running: " s
      /\ ~ Substring "No exact OS matches" s
      /\ Substring "Too many fingerprints match" s)
  /\ (kind (classify s) = InconclusiveDetection <->
      ~ Occurs "OS details: " s /\ ~ Occurs "Running: " s
      /\ ~ Substring "No exact OS matches" s
      /\ ~ Substring "Too many fingerprints match" s
      /\ Substring "OS detection performed" s).
Proof.
  destruct s as [|c s].
  - assert (Hocc : forall lit, ~ Occurs lit "")
      by (intros lit H; now apply occurs_nonempty in H).
    assert (Hsub : forall a b, ~ Substring (String a b) "").
    { intros a b (pre & post & H). destruct pre; discriminate. }
    simpl. repeat split; try discriminate; intros H; exfalso;
      repeat match goal with
        | H : _ /\ _ |- _ => destruct H
        | H : Occurs _ "" |- _ => exact (Hocc _ H)
        | H : Substring _ "" |- _ => exact (Hsub _ _ H)
        end.
  - rewrite classify_decide by discriminate. unfold decide.
    destruct (first_match_cases "OS details: " (String c s))
      as [[E1 H1]|(cap1 & E1 & H1)]; rewrite E1;
      [|simpl; repeat split; try discriminate; try tauto].
    destruct (first_match_cases "Running: " (String c s))
      as [[E2 H2]|(cap2 & E2 & H2)]; rewrite E2;
      [|simpl; repeat split; try discriminate; try tauto].
    destruct (contains_cases "No exact OS matches" (String c s))
      as [[E3 H3]|[E3 H3]]; rewrite E3;
      [simpl; repeat split; try discriminate; try tauto|].
    destruct (contains_cases "Too many fingerprints match" (String c s))
      as [[E4 H4]|[E4 H4]]; rewrite E4;
      [simpl; repeat split; try discriminate; try tauto|].
    destruct (contains_cases "OS detection performed" (String c s))
      as [[E5 H5]|[E5 H5]]; rewrite E5;
      simpl; repeat split; try discriminate; try tauto.
Qed.

(** The string returned does not tell an exact match from a guess: a text
    whose first [OS details:] line reads [X] and a text with no such line
    whose first [Running:] line reads [X] give the same markup, although
    they leave the function through different [return]s. *)
Theorem exact_and_guess_print_alike (s1 s2 X : string) :
  FirstCapture "OS details: " s1 X ->
  ~ Occurs "OS details: " s2 -> FirstCapture "Running: " s2 X ->
  parse_os_fingerprint s1 = parse_os_fingerprint s2
  /\ kind (classify s1) <> kind (classify s2).
Proof.
  intros H1 Hno H2.
  assert (E1 : classify s1 = mkFingerprint ExactMatch X).
  { rewrite classify_decide
      by (eapply occurs_nonempty, first_capture_occurs, H1).
    unfold decide. now rewrite (first_capture_match _ _ _ H1). }
  assert (E2 : classify s2 = mkFingerprint GuessedMatch X).
  { rewrite classify_decide
      by (eapply occurs_nonempty, first_capture_occurs, H2).
    unfold decide. rewrite (proj2 (first_match_none _ _) Hno).
    now rewrite (first_capture_match _ _ _ H2). }
  rewrite !parse_render, E1, E2. split; [reflexivity | discriminate].
Qed.

(** *** Lines after the first match *)

Lemma str_app_prefix (p s u v : string) :
  s ++ u = p ++ v -> String.length p <= String.length s ->
  exists v', s = p ++ v'.
Proof.
  revert s. induction p as [|a p IH]; intros s H Hlen.
  - now exists s.
  - destruct s as [|b s]; [simpl in Hlen; lia|].
    simpl in H. inversion H; subst b.
    destruct (IH s H2) as (v' & ->); [simpl in Hlen; lia|].
    now exists v'.
Qed.

Lemma str_app_length (a b : string) :
  String.length (a ++ b) = String.length a + String.length b.
Proof. induction a as [|c a IH]; simpl; [reflexivity | now rewrite IH]. Qed.

Lemma occurs_app (lit s u : string) : Occurs lit s -> Occurs lit (s ++ u).
Proof.
  intros (pre & c & rest & -> & Hc). exists pre, c, (rest ++ u).
  split; [|exact Hc]. now rewrite !str_app_assoc.
Qed.

Lemma at_line_end_app (rest t : string) :
  at_line_end rest -> at_line_end (rest ++ String newline t).
Proof.
  intros [->|(r & ->)]; right; [now exists t | now exists (r ++ String newline t)].
Qed.

Lemma match_here_app (lit s t cap : string) :
  match_here lit s = Some cap ->
  match_here lit (s ++ String newline t) = Some cap.
Proof.
  intros H. apply match_here_Some in H.
  destruct H as (Hne & Hone & rest & -> & Hend).
  apply match_here_Some. repeat split; try assumption.
  exists (rest ++ String newline t). split.
  - now rewrite !str_app_assoc.
  - now apply at_line_end_app.
Qed.

Lemma first_match_app (lit s t cap : string) :
  first_match lit s = Some cap ->
  first_match lit (s ++ String newline t) = Some cap.
Proof.
  induction s as [|a s IH]; rewrite first_match_unfold.
  - rewrite match_here_empty. discriminate.
  - destruct (match_here lit (String a s)) as [cap'|] eqn:E.
    + intros H. inversion H; subst cap'.
      rewrite first_match_unfold, (match_here_app _ _ t _ E). reflexivity.
    + intros H. rewrite first_match_unfold.
      destruct (match_here lit (String a s ++ String newline t))
        as [cap'|] eqn:E'; [|simpl; now apply IH].
      exfalso.
      assert (Hocc : OccursAt lit "" (String a s ++ String newline t))
        by (apply match_here_occurs; now exists cap').
      destruct Hocc as (c & r & Hs & Hc). simpl in Hs.
      assert (Hin : Occurs lit s)
        by (eapply first_capture_occurs, first_match_capture, H).
      destruct Hin as (pre & c0 & r0 & Hs0 & _).
      assert (Hlen : String.length (lit ++ String c "") <= String.length (String a s)).
      { rewrite Hs0. simpl. rewrite !str_app_length. simpl. lia. }
      destruct (str_app_prefix (lit ++ String c "") (String a s)
                  (String newline t) r) as (v' & Hv).
      { simpl. rewrite Hs, str_app_assoc. reflexivity. }
      { exact Hlen. }
      assert (Hhere : OccursAt lit "" (String a s)).
      { exists c, v'. split; [|exact Hc]. simpl.
        rewrite Hv, str_app_assoc. reflexivity. }
      apply match_here_occurs in Hhere. destruct Hhere as (x & Hx). congruence.
Qed.

(** Once a line pattern has matched, what the scanner prints on later lines
    does not change the answer: with an [OS details:] match in [s], the
    outcome for [s] followed by a line feed and any text is the outcome for
    [s]; the same holds for a [Running:] match as long as the longer text
    holds no [OS details:] match. *)
Theorem later_lines_ignored (s t : string) :
  (Occurs "OS details: " s ->
     classify (s ++ String newline t) = classify s
     /\ parse_os_fingerprint (s ++ String newline t) = parse_os_fingerprint s)
  /\ (Occurs "Running: " s ->
      ~ Occurs "OS details: " (s ++ String newline t) ->
        classify (s ++ String newline t) = classify s
        /\ parse_os_fingerprint (s ++ String newline t) = parse_os_fingerprint s).
Proof.
  assert (Hne : forall u, s <> "" -> s ++ u <> "")
    by (intros u H; destruct s; [contradiction | discriminate]).
  split.
  - intros H. pose proof (occurs_nonempty _ _ H) as Hs.
    destruct (occurs_first_match _ _ H) as (cap & E).
    assert (Hc : classify (s ++ String newline t) = classify s).
    { rewrite !classify_decide by auto. unfold decide.
      now rewrite (first_match_app _ _ t _ E), E. }
    split; [exact Hc | now rewrite !parse_render, Hc].
  - intros H Hno. pose proof (occurs_nonempty _ _ H) as Hs.
    destruct (occurs_first_match _ _ H) as (cap & E).
    assert (Hno' : ~ Occurs "OS details: " s)
      by (intros H'; apply Hno; now apply occurs_app).
    assert (Hc : classify (s ++ String newline t) = classify s).
    { rewrite !classify_decide by auto. unfold decide.
      rewrite (proj2 (first_match_none _ _) Hno),
        (proj2 (first_match_none _ _) Hno').
      now rewrite (first_match_app _ _ t _ E), E. }
    split; [exact Hc | now rewrite !parse_render, Hc].
Qed.

End ClassifierLaws.

(* ================================================================== *)
(** ** Further properties: the session *)
(* ================================================================== *)

Module SessionLaws.
Import PyText PyTextFacts TextLaws Classifier ClassifierFacts Session SessionFacts.

(** *** The command line of a scan *)

Lemma nmap_command_split (nmap_path nmap_args target : string) :
  nmap_command nmap_path nmap_args target
  = (split nmap_path ++ split nmap_args ++ split target)%list.
Proof.
  unfold nmap_command, split. cbn [append].
  rewrite split_from_space by reflexivity. unfold split.
  now rewrite split_from_space by reflexivity.
Qed.

(** The argument vector of line 168 is made of the whitespace-separated
    words of the tool path, of the arguments and of the target, in this
    order; no argument is empty or holds whitespace.  So blank arguments add
    nothing, and a tool path with a space in it is broken apart. *)
Theorem command_is_words (nmap_path nmap_args target : string) :
  nmap_command nmap_path nmap_args target
  = (split nmap_path ++ split nmap_args ++ split target)%list
  /\ Forall token (nmap_command nmap_path nmap_args target)
  /\ (all_space nmap_args = true ->
      nmap_command nmap_path nmap_args target
      = (split nmap_path ++ split target)%list).
Proof.
  split; [apply nmap_command_split|]. split.
  - unfold nmap_command, split. now apply split_from_tokens.
  - intros H. rewrite nmap_command_split.
    assert (E : split nmap_args = []).
    { unfold split. clear -H. induction nmap_args as [|c a IH]; [reflexivity|].
      simpl in *. apply andb_true_iff in H. destruct H as [Hc Ha].
      rewrite Hc. now apply IH. }
    now rewrite E.
Qed.

(** When the tool path and the target are single words, the child process
    is started with the tool path first and the target last, whatever the
    arguments in between. *)
Theorem command_frame (nmap_path nmap_args target : string) :
  token nmap_path -> token target ->
  nmap_command nmap_path nmap_args target
  = (nmap_path :: split nmap_args ++ [target])%list
  /\ hd_error (nmap_command nmap_path nmap_args target) = Some nmap_path
  /\ last (nmap_command nmap_path nmap_args target) "" = target.
Proof.
  intros Hp Ht.
  assert (E : nmap_command nmap_path nmap_args target
              = (nmap_path :: split nmap_args ++ [target])%list)
    by (rewrite nmap_command_split, (split_token _ Hp), (split_token _ Ht);
        reflexivity).
  rewrite E. split; [reflexivity|]. split; [reflexivity|].
  change (nmap_path :: split nmap_args ++ [target])%list
    with ((nmap_path :: split nmap_args) ++ [target])%list.
  apply last_last.
Qed.

(** *** Target entry *)

Section EntryLaws.

Variable gethostbyname : string -> lookup.

Local Abbreviation target_step := (target_step gethostbyname).
Local Abbreviation target_loop := (target_loop gethostbyname).
Local Abbreviation goes_on := (goes_on gethostbyname).
Local Abbreviation address_of := (address_of gethostbyname).
Local Abbreviation entry_message := (entry_message gethostbyname).
Local Abbreviation interactive_target_selection :=
  (interactive_target_selection gethostbyname).



Lemma target_step_goes_on (a : string) (targets : list string)
  (out : list event) :
  goes_on a = true ->
  target_step a targets out
  = Continue (targets ++ address_of a)%list (out ++ [entry_message a])%list.
Proof.
  unfold Session.goes_on, Session.target_step, Session.address_of,
    Session.entry_message, resolve_host.
  intros H. apply andb_true_iff in H. destruct H as [Ht Hg]. rewrite Ht.
  cbn [negb]. destruct (gethostbyname (strip a)) as [[|c ip]| |e];
    try discriminate; cbn [app]; rewrite ?app_nil_r; reflexivity.
Qed.

Lemma target_step_Continue_goes_on (a : string) (targets targets' : list string)
  (out out' : list event) :
  target_step a targets out = Continue targets' out' -> goes_on a = true.
Proof.
  unfold Session.goes_on, Session.target_step, resolve_host.
  destruct (truthy (strip a)); cbn [negb andb]; [|discriminate].
  destruct (gethostbyname (strip a)) as [[|c ip]| |e];
    try discriminate; reflexivity.
Qed.



(** Whatever way the entry loop ends, it printed one message for each
    answer it went on from, and nothing else. *)
Lemma target_loop_trace (pending : list action) :
  forall (targets : list string) (out out' : list event)
         (r : result (list string)) (rest : list action),
    target_loop pending targets out = (r, rest, out') ->
    exists entered, out' = (out ++ map entry_message entered)%list.
Proof.
  induction pending as [|[a|] pending IH]; intros targets out out' r rest H;
    cbn [Session.target_loop] in H.
  - inversion H; subst. exists []. now rewrite app_nil_r.
  - destruct (target_step a targets out) as [|targets1 out1|e] eqn:E.
    + inversion H; subst. exists []. now rewrite app_nil_r.
    + pose proof (target_step_Continue_goes_on _ _ _ _ _ E) as Ha.
      rewrite (target_step_goes_on a targets out Ha) in E. inversion E; subst.
      destruct (IH _ _ _ _ _ H) as (entered & ->).
      exists (a :: entered). cbn [map]. now rewrite <- app_assoc.
    + inversion H; subst. exists []. now rewrite app_nil_r.
  - inversion H; subst. exists []. now rewrite app_nil_r.
Qed.


End EntryLaws.

(** The name service is only ever asked about names that are not empty and
    carry no whitespace at either end: two name services that agree on
    those names give the same target selection. *)
Theorem lookup_names_are_stripped (g1 g2 : string -> lookup) (w : world) :
  (forall x, x <> "" -> strip x = x -> g1 x = g2 x) ->
  interactive_target_selection g1 w = interactive_target_selection g2 w.
Proof.
  intros Hagree.
  assert (Hstep : forall a targets out,
             target_step g1 a targets out = target_step g2 a targets out).
  { intros a targets out. unfold target_step, resolve_host.
    destruct (strip a) as [|c r] eqn:E; [reflexivity|].
    rewrite <- E, (Hagree (strip a)); [reflexivity | | apply strip_idempotent].
    rewrite E. discriminate. }
  unfold interactive_target_selection.
  assert (Hloop : forall pending targets out,
             target_loop g1 pending targets out = target_loop g2 pending targets out).
  { induction pending as [|[a|] pending IH]; intros targets out;
      cbn [target_loop]; try reflexivity.
    rewrite Hstep. destruct (target_step g2 a targets out); try reflexivity.
    apply IH. }
  now rewrite Hloop.
Qed.

(** *** The mode menu *)

Lemma mode_loop_returned (pending : list action) :
  forall (mode args : string) (rest : list action),
    mode_loop pending = (Ret (mode, args), rest) ->
    exists skipped,
      forallb (fun c => negb (is_choice c)) skipped = true
      /\ ((mode = "quick"
           /\ args = "-O --osscan-guess --max-retries 1 --host-timeout 30s"
           /\ pending = (map Answer skipped ++ Answer "1" :: rest)%list)
          \/ (mode = "aggressive"
              /\ args = "-O -T4 --osscan-guess --version-all --max-retries 3"
              /\ pending = (map Answer skipped ++ Answer "2" :: rest)%list)
          \/ (mode = "custom"
              /\ pending
                 = (map Answer skipped ++ Answer "3" :: Answer args :: rest)%list)).
Proof.
  induction pending as [|[c|] pending IH]; intros mode args rest H;
    cbn [mode_loop] in H; try discriminate.
  destruct (String.eqb_spec c "1") as [->|H1].
  { inversion H; subst. exists []. split; [reflexivity|]. left. now repeat split. }
  destruct (String.eqb_spec c "2") as [->|H2].
  { inversion H; subst. exists []. split; [reflexivity|]. right. left.
    now repeat split. }
  destruct (String.eqb_spec c "3") as [->|H3].
  { destruct pending as [|[custom|] pending]; try discriminate.
    inversion H; subst. exists []. split; [reflexivity|]. right. right.
    now repeat split. }
  destruct (IH _ _ _ H) as (skipped & Hsk & Hcases).
  exists (c :: skipped). split.
  - cbn [forallb]. rewrite Hsk. unfold is_choice.
    destruct (String.eqb_spec c "1"); [contradiction|].
    destruct (String.eqb_spec c "2"); [contradiction|].
    destruct (String.eqb_spec c "3"); [contradiction|]. reflexivity.
  - cbn [map app].
    destruct Hcases as [(-> & -> & ->)|[(-> & -> & ->)|(-> & ->)]];
      [left | right; left | right; right]; now repeat split.
Qed.

Lemma mode_loop_raised (pending : list action) :
  forall (e : exn) (rest : list action),
    mode_loop pending = (Raise e, rest) ->
    e = EOFError \/ e = KeyboardInterrupt.
Proof.
  induction pending as [|[c|] pending IH]; intros e rest H;
    cbn [mode_loop] in H.
  - inversion H. now left.
  - destruct (String.eqb c "1"); [discriminate|].
    destruct (String.eqb c "2"); [discriminate|].
    destruct (String.eqb c "3"); [|now apply (IH _ _ H)].
    destruct pending as [|[custom|] pending]; inversion H; auto.
  - inversion H. now right.
Qed.

Lemma select_scan_mode_any (w w' : world) (r : result (string * string)) :
  select_scan_mode w = (r, w') ->
  mode_loop (answers w) = (r, answers w')
  /\ console w' = (console w ++ [mode_table])%list
  /\ spawned w' = spawned w.
Proof.
  unfold select_scan_mode, bind, emit. cbn [answers console spawned].
  destruct (mode_loop (answers w)) as [r0 rest]. intros H.
  inversion H; subst. now repeat split.
Qed.

(** [select_scan_mode] returns one of the three modes and nothing else.  It
    passes over every answer that is not [1], [2] or [3], gives the fixed
    arguments of the table for [1] and [2], and for [3] gives back what the
    next prompt returns as it is, with no check of its own.  It shows the
    table once and runs nothing. *)
Theorem mode_selection_closed_form (w w' : world) (mode args : string) :
  select_scan_mode w = (Ret (mode, args), w') ->
  console w' = (console w ++ [mode_table])%list
  /\ spawned w' = spawned w
  /\ exists skipped,
       forallb (fun c => negb (is_choice c)) skipped = true
       /\ ((mode = "quick"
            /\ args = "-O --osscan-guess --max-retries 1 --host-timeout 30s"
            /\ answers w = (map Answer skipped ++ Answer "1" :: answers w')%list)
           \/ (mode = "aggressive"
               /\ args = "-O -T4 --osscan-guess --version-all --max-retries 3"
               /\ answers w = (map Answer skipped ++ Answer "2" :: answers w')%list)
           \/ (mode = "custom"
               /\ answers w
                  = (map Answer skipped ++ Answer "3" :: Answer args
                       :: answers w')%list)).
Proof.
  intros H. apply select_scan_mode_any in H. destruct H as (Hloop & Hc & Hs).
  split; [exact Hc|]. split; [exact Hs|]. now apply mode_loop_returned.
Qed.

(** *** The scan batch, when a child process cannot be run *)

Section ScanLaws.

Variable subprocess_run : nat -> list string -> proc.
Variables nmap_path nmap_args : string.

Local Abbreviation child := (child subprocess_run nmap_path nmap_args).
Local Abbreviation batch_runs := (batch_runs subprocess_run nmap_path nmap_args).
Local Abbreviation batch_results :=
  (batch_results subprocess_run nmap_path nmap_args).
Local Abbreviation batch_trace := (batch_trace subprocess_run nmap_path nmap_args).
Local Abbreviation scan_loop := (scan_loop subprocess_run nmap_path nmap_args).
Local Abbreviation cmd := (nmap_command nmap_path nmap_args).

Lemma scan_loop_app (l1 l2 : list string) :
  forall (results : dict) (w : world),
    scan_loop (l1 ++ l2) results w
    = match scan_loop l1 results w with
      | (Ret r, w1) => scan_loop l2 r w1
      | (Raise e, w1) => (Raise e, w1)
      end.
Proof.
  induction l1 as [|t l1 IH]; intros results w; [reflexivity|].
  cbn [app Session.scan_loop]. unfold bind.
  destruct (scan_one subprocess_run nmap_path nmap_args t results w)
    as [[r|e] w1]; [apply IH | reflexivity].
Qed.

Lemma scan_loop_fails (pre post : list string) (t : string) (e : exn)
  (results : dict) (w : world) :
  batch_runs (spawned w) pre = true ->
  child (spawned w + List.length pre) t = RunRaises e ->
  scan_loop (pre ++ t :: post) results w
  = (Raise e,
     mkWorld (answers w) (console w ++ batch_trace (spawned w) (pre ++ [t]))
       (S (spawned w + List.length pre))).
Proof.
  intros Hpre Hchild. rewrite scan_loop_app, scan_loop_eq by exact Hpre.
  cbn [Session.scan_loop]. unfold bind. rewrite scan_one_eq.
  cbn [answers console spawned]. rewrite Hchild.
  rewrite batch_trace_app. cbn [Session.batch_trace].
  now rewrite app_nil_r, <- app_assoc.
Qed.

Lemma scan_loop_raised (targets : list string) :
  forall (results : dict) (w w' : world) (e : exn),
    scan_loop targets results w = (Raise e, w') ->
    exists pre t post,
      targets = (pre ++ t :: post)%list
      /\ batch_runs (spawned w) pre = true
      /\ child (spawned w + List.length pre) t = RunRaises e.
Proof.
  induction targets as [|t0 rest IH]; intros results w w' e H;
    [discriminate|].
  cbn [Session.scan_loop] in H. unfold bind in H. rewrite scan_one_eq in H.
  destruct (child (spawned w) t0) as [out err rc| |e0] eqn:C.
  - apply IH in H. cbn [spawned] in H.
    destruct H as (pre & t & post & -> & Hpre & Hchild).
    exists (t0 :: pre), t, post. split; [reflexivity|].
    cbn [Session.batch_runs List.length]. rewrite C. cbn [recorded].
    split; [exact Hpre | now rewrite Nat.add_succ_r].
  - apply IH in H. cbn [spawned] in H.
    destruct H as (pre & t & post & -> & Hpre & Hchild).
    exists (t0 :: pre), t, post. split; [reflexivity|].
    cbn [Session.batch_runs List.length]. rewrite C. cbn [recorded].
    split; [exact Hpre | now rewrite Nat.add_succ_r].
  - inversion H; subst. exists [], t0, rest. cbn [List.length].
    rewrite Nat.add_0_r. now repeat split.
Qed.


End ScanLaws.

(** *** What the mapping keeps of a child process *)





Lemma dict_set_fresh (k v : string) (d : dict) :
  ~ In k (keys d) -> dict_set k v d = (d ++ [(k, v)])%list.
Proof.
  unfold keys. induction d as [|[k' v'] d IH]; intros Hnot; [reflexivity|].
  cbn [dict_set]. destruct (String.eqb_spec k k') as [->|Hne].
  - exfalso. apply Hnot. now left.
  - cbn [app]. rewrite IH; [reflexivity|]. intros H. apply Hnot. now right.
Qed.

(** The panels of the report, as events. *)
Lemma report_loop_fresh (items : dict) :
  forall (fingerprints : dict) (w : world),
    NoDup (keys fingerprints ++ keys items) ->
    report_loop items fingerprints w
    = (Ret (fingerprints ++ map report_panel items)%list,
       mkWorld (answers w)
         (console w ++ map (fun it => ReportPanel (fst it)
                                        (parse_os_fingerprint (snd it))) items)
         (spawned w)).
Proof.
  induction items as [|[t o] items IH]; intros fingerprints w Hnd.
  - cbn [report_loop map]. unfold ret. rewrite !app_nil_r. now destruct w.
  - cbn [report_loop]. unfold bind, emit.
    assert (Hfresh : ~ In t (keys fingerprints)).
    { intros Hin. unfold keys in Hnd. cbn [map fst] in Hnd.
      apply NoDup_remove_2 in Hnd. apply Hnd. apply in_or_app. now left. }
    rewrite (dict_set_fresh _ _ _ Hfresh), IH.
    + cbn [answers console spawned map]. unfold report_panel at 2.
      cbn [fst snd]. now rewrite <- !app_assoc.
    + unfold keys in *. rewrite map_app. cbn [map fst] in *.
      now rewrite <- app_assoc.
Qed.


(** *** The session from end to end *)

Lemma plain_sound (l : list event) :
  forallb plain l = true ->
  ~ In unavailable_warning l /\ (forall fp, ~ In (Plot fp) l)
  /\ report_entries l = [].
Proof.
  induction l as [|e l IH]; intros H; [simpl; tauto|].
  cbn [forallb] in H. apply andb_true_iff in H. destruct H as [He Hl].
  destruct (IH Hl) as (H1 & H2 & H3). repeat split.
  - intros [->|Hin]; [discriminate He | contradiction].
  - intros fp [->|Hin]; [discriminate He | exact (H2 fp Hin)].
  - unfold report_entries in *. cbn [flat_map]. rewrite H3.
    destruct e; try reflexivity; discriminate He.
Qed.

Lemma plain_entry_messages (g : string -> lookup) (entered : list string) :
  forallb plain (map (entry_message g) entered) = true.
Proof.
  induction entered as [|a entered IH]; [reflexivity|].
  cbn [map forallb]. rewrite IH, andb_true_r. unfold entry_message.
  destruct (g (strip a)) as [[|c ip]| |e]; reflexivity.
Qed.

Lemma plain_pass_trace (run : nat -> list string -> proc)
  (nmap_path nmap_args : string) (n : nat) (t : string) :
  forallb plain (pass_trace run nmap_path nmap_args n t) = true.
Proof.
  unfold pass_trace.
  destruct (child run nmap_path nmap_args n t) as [out err rc| |e];
    [destruct (Z.eqb rc 0)|..]; reflexivity.
Qed.

Lemma plain_batch_trace (run : nat -> list string -> proc)
  (nmap_path nmap_args : string) (targets : list string) :
  forall n, forallb plain (batch_trace run nmap_path nmap_args n targets) = true.
Proof.
  induction targets as [|t rest IH]; intros n; [reflexivity|].
  cbn [batch_trace]. now rewrite forallb_app, plain_pass_trace, IH.
Qed.

Lemma panels_sound (items : dict) :
  ~ In unavailable_warning (map panel_event items)
  /\ (forall fp, ~ In (Plot fp) (map panel_event items))
  /\ report_entries (map panel_event items) = map report_panel items.
Proof.
  repeat split.
  - intros H. apply in_map_iff in H. destruct H as (it & H & _). discriminate.
  - intros fp H. apply in_map_iff in H. destruct H as (it & H & _). discriminate.
  - apply report_entries_panels.
Qed.

Section MainLaws.

Variable gethostbyname : string -> lookup.
Variable subprocess_run : nat -> list string -> proc.
Variable config_file : option dict.
Variable HAS_3D : bool.

Local Abbreviation interactive_target_selection :=
  (interactive_target_selection gethostbyname).
Local Abbreviation target_loop := (target_loop gethostbyname).
Local Abbreviation goes_on := (goes_on gethostbyname).
Local Abbreviation address_of := (address_of gethostbyname).
Local Abbreviation entry_message := (entry_message gethostbyname).
Local Abbreviation run_nmap_scan := (run_nmap_scan subprocess_run).
Local Abbreviation scan_and_report := (scan_and_report subprocess_run HAS_3D).
Local Abbreviation main := (main gethostbyname subprocess_run config_file HAS_3D).
Local Abbreviation entry_point :=
  (entry_point gethostbyname subprocess_run config_file HAS_3D).
Local Abbreviation batch_runs := (batch_runs subprocess_run).
Local Abbreviation batch_results := (batch_results subprocess_run).
Local Abbreviation batch_trace := (batch_trace subprocess_run).
Local Abbreviation child := (child subprocess_run).

Lemma closing_cases (fingerprints : dict) (w w' : world) (r : result unit) :
  ((if HAS_3D
    then choice <- prompt_ask ;;
         if String.eqb choice "y"
         then plot_3d_network_map HAS_3D fingerprints else ret tt
    else ret tt) ;;
   console_print "[success]Scan complete. Stay ethical![/success]") w = (r, w') ->
  spawned w' = spawned w
  /\ exists tail,
       console w' = (console w ++ tail)%list
       /\ ((HAS_3D = true /\ tail = []
            /\ (r = Raise EOFError \/ r = Raise KeyboardInterrupt))
           \/ (r = Ret tt /\ tail = [completion_message])
           \/ (HAS_3D = true /\ r = Ret tt
               /\ tail = [Plot fingerprints; completion_message])).
Proof.
  unfold bind, prompt_ask, plot_3d_network_map, console_print, emit, ret.
  destruct HAS_3D; cbn [negb].
  - destruct (answers w) as [|[choice|] rest]; intros H.
    + inversion H; subst. split; [reflexivity|]. exists [].
      rewrite app_nil_r. split; [reflexivity|]. left. auto.
    + destruct (String.eqb choice "y"); inversion H; subst;
        cbn [console spawned]; (split; [reflexivity|]).
      * exists [Plot fingerprints; completion_message].
        rewrite <- app_assoc. split; [reflexivity|]. right. right. auto.
      * exists [completion_message]. split; [reflexivity|]. right. left. auto.
    + inversion H; subst. split; [reflexivity|]. exists [].
      rewrite app_nil_r. split; [reflexivity|]. left. auto.
  - intros H. inversion H; subst. cbn [console spawned].
    split; [reflexivity|]. exists [completion_message].
    split; [reflexivity|]. right. left. auto.
Qed.

(** Every way through [main] after the targets are gathered. *)
Lemma scan_and_report_any (nmap_path : string) (targets : list string)
  (w w' : world) (r : result unit) :
  scan_and_report nmap_path targets w = (r, w') ->
  (exists e,
      r = Raise e /\ (e = EOFError \/ e = KeyboardInterrupt)
      /\ console w' = (console w ++ [mode_table])%list)
  \/ (exists mode args w0,
        select_scan_mode w = (Ret (mode, args), w0)
        /\ ((exists pre t post e,
                targets = (pre ++ t :: post)%list
                /\ batch_runs nmap_path args (spawned w) pre = true
                /\ child nmap_path args (spawned w + List.length pre) t
                   = RunRaises e
                /\ r = Raise e
                /\ console w'
                   = (console w ++ [mode_table; mode_message mode args]
                        ++ batch_trace nmap_path args (spawned w) (pre ++ [t]))%list)
            \/ (batch_runs nmap_path args (spawned w) targets = true
                /\ exists tail,
                     console w'
                     = (console w ++ [mode_table; mode_message mode args]
                          ++ batch_trace nmap_path args (spawned w) targets
                          ++ map panel_event
                               (batch_results nmap_path args (spawned w) targets [])
                          ++ tail)%list
                     /\ ((HAS_3D = true /\ tail = []
                          /\ (r = Raise EOFError \/ r = Raise KeyboardInterrupt))
                         \/ (r = Ret tt /\ tail = [completion_message])
                         \/ (HAS_3D = true /\ r = Ret tt
                             /\ tail
                                = [Plot (map report_panel
                                           (batch_results nmap_path args
                                              (spawned w) targets []));
                                   completion_message]))))).
Proof.
  unfold Session.scan_and_report. unfold bind at 1.
  destruct (select_scan_mode w) as [[[mode args]|e] w0] eqn:Esel.
  2:{ intros H. inversion H; subst. left. exists e.
      apply select_scan_mode_any in Esel. destruct Esel as (Hloop & Hc & _).
      split; [reflexivity|]. split; [now apply mode_loop_raised in Hloop | exact Hc]. }
  pose proof (select_scan_mode_any _ _ _ Esel) as (_ & Hc0 & Hs0).
  right. exists mode, args, w0. split; [reflexivity|].
  revert H. unfold bind at 1. unfold console_print at 1, emit at 1.
  unfold bind at 1.
  match goal with
  | |- context [run_nmap_scan nmap_path targets args ?W] => set (w1 := W)
  end.
  assert (Hs1 : spawned w1 = spawned w) by (subst w1; exact Hs0).
  assert (Hc1 : console w1 = (console w ++ [mode_table; mode_message mode args])%list).
  { subst w1. cbn [console]. rewrite Hc0, <- app_assoc. reflexivity. }
  clearbody w1.
  destruct (run_nmap_scan nmap_path targets args w1)
    as [[results|e] w2] eqn:Escan; unfold Session.run_nmap_scan in Escan.
  - pose proof (scan_loop_ret _ _ _ _ _ _ _ _ Escan) as Hruns.
    rewrite scan_loop_eq in Escan by exact Hruns.
    inversion Escan; subst results w2. clear Escan.
    unfold bind at 1. rewrite report_loop_fresh.
    2:{ cbn [keys map app]. rewrite keys_batch_results.
        apply fold_note_NoDup. constructor. }
    intros H. apply closing_cases in H. cbn [console spawned] in H.
    destruct H as (_ & tail & Hc & Hcases).
    right. rewrite Hs1 in *. split; [exact Hruns|]. exists tail.
    split; [|exact Hcases].
    rewrite Hc, Hc1, <- !app_assoc. reflexivity.
  - intros H. inversion H; subst r w'. clear H.
    destruct (scan_loop_raised _ _ _ _ _ _ _ _ Escan)
      as (pre & t & post & -> & Hpre & Hchild).
    rewrite (scan_loop_fails _ _ _ pre post t e [] w1 Hpre Hchild) in Escan.
    inversion Escan; subst w2. cbn [console].
    left. exists pre, t, post, e. rewrite Hs1 in *.
    repeat split; try assumption. rewrite Hc1, <- !app_assoc. reflexivity.
Qed.






Lemma plain_greeting (w : world) :
  console w = [] -> forallb plain (console (greeted config_file w)) = true.
Proof.
  intros H. unfold greeted. cbn [console]. rewrite H.
  destruct config_file; reflexivity.
Qed.

(** On a console that starts empty, [main] never prints the warning of
    [plot_3d_network_map] (the call of line 271 is guarded by the same
    flag), and when it plots, at most once and only in a session that runs
    to completion with the plotting libraries present, the mapping it plots
    is the report just printed: the same targets with the same texts in the
    same order. *)
Theorem plot_gets_the_report (w w' : world) (r : result unit) :
  main w = (r, w') -> console w = [] ->
  ~ In unavailable_warning (console w')
  /\ forall fingerprints,
       In (Plot fingerprints) (console w') ->
       HAS_3D = true /\ r = Ret tt
       /\ fingerprints = report_entries (console w').
Proof.
  intros Hmain Hfresh. rewrite main_unfold in Hmain.
  pose proof (plain_greeting w Hfresh) as Hgreet.
  remember (greeted config_file w) as G eqn:HG. clear HG Hfresh.
  destruct (interactive_target_selection G)
    as [[targets|e0] w1] eqn:Hsel;
    unfold Session.interactive_target_selection in Hsel;
    destruct (target_loop (answers G) [] (console G)) as [[r0 rest] out] eqn:E;
    apply target_loop_trace in E; destruct E as (entered & ->);
    inversion Hsel; subst; clear Hsel;
    pose proof (plain_entry_messages gethostbyname entered) as Hmsgs.
  2:{ inversion Hmain; subst. cbn [console].
      assert (Hp : forallb plain (console G ++ map entry_message entered) = true)
        by (now rewrite forallb_app, Hgreet, Hmsgs).
      apply plain_sound in Hp. destruct Hp as (H1 & H2 & _).
      split; [exact H1 | intros fp Hin; now apply H2 in Hin]. }
  destruct targets as [|t0 targets]; cbn [nonempty negb] in Hmain.
  { inversion Hmain; subst. cbn [console].
    assert (Hp : forallb plain ((console G ++ map entry_message entered)
                                  ++ [no_targets_message]) = true)
      by (now rewrite !forallb_app, Hgreet, Hmsgs).
    apply plain_sound in Hp. destruct Hp as (H1 & H2 & _).
    split; [exact H1 | intros fp Hin; now apply H2 in Hin]. }
  apply scan_and_report_any in Hmain. cbn [console spawned] in Hmain.
  set (before := (console G ++ map entry_message entered)%list) in *.
  assert (Hbefore : forallb plain before = true)
    by (subst before; now rewrite forallb_app, Hgreet, Hmsgs).
  destruct Hmain as [(e & _ & _ & ->)|(mode & args & w0 & _ & Hmain)].
  { assert (Hp : forallb plain (before ++ [mode_table]) = true)
      by (now rewrite forallb_app, Hbefore).
    apply plain_sound in Hp. destruct Hp as (H1 & H2 & _).
    split; [exact H1 | intros fp Hin; now apply H2 in Hin]. }
  destruct Hmain as [(pre & t & post & e & _ & _ & _ & _ & ->)
                    |(_ & tail & Hc & Hcases)].
  { assert (Hp : forallb plain
                   (before ++ [mode_table; mode_message mode args]
                      ++ batch_trace (configured_nmap_path config_file) args
                           (spawned G) (pre ++ [t])) = true)
      by (now rewrite !forallb_app, Hbefore, plain_batch_trace).
    apply plain_sound in Hp. destruct Hp as (H1 & H2 & _).
    split; [exact H1 | intros fp Hin; now apply H2 in Hin]. }
  set (results := batch_results (configured_nmap_path config_file) args
                    (spawned G) (t0 :: targets) []) in *.
  set (scanned := (before ++ [mode_table; mode_message mode args]
                     ++ batch_trace (configured_nmap_path config_file) args
                          (spawned G) (t0 :: targets))%list).
  assert (Hp : forallb plain scanned = true)
    by (subst scanned; now rewrite !forallb_app, Hbefore, plain_batch_trace).
  apply plain_sound in Hp. destruct Hp as (H1 & H2 & H3).
  destruct (panels_sound results) as (P1 & P2 & P3).
  assert (Hc' : console w' = (scanned ++ map panel_event results ++ tail)%list).
  { rewrite Hc. subst scanned before. now rewrite <- !app_assoc. }
  assert (Hrep : forall tl, report_entries tl = [] ->
             report_entries (scanned ++ map panel_event results ++ tl)
             = map report_panel results).
  { intros tl Htl. rewrite !report_entries_app, H3, P3, Htl.
    now rewrite app_nil_r. }
  clearbody scanned results. rewrite Hc'. clear Hc Hc'.
  destruct Hcases as [(_ & -> & _)|[(_ & ->)|(H3d & -> & ->)]].
  - split.
    + rewrite !in_app_iff. intros [H|[H|[]]]; [exact (H1 H) | exact (P1 H)].
    + intros fp. rewrite !in_app_iff.
      intros [H|[H|[]]]; [now apply H2 in H | now apply P2 in H].
  - split.
    + rewrite !in_app_iff. intros [H|[H|[H|[]]]];
        [exact (H1 H) | exact (P1 H) | discriminate H].
    + intros fp. rewrite !in_app_iff.
      intros [H|[H|[H|[]]]];
        [now apply H2 in H | now apply P2 in H | discriminate H].
  - split.
    + rewrite !in_app_iff. intros [H|[H|[H|[H|[]]]]];
        [exact (H1 H) | exact (P1 H) | discriminate H | discriminate H].
    + intros fp. rewrite !in_app_iff.
      intros [H|[H|[H|[H|[]]]]];
        [now apply H2 in H | now apply P2 in H | | discriminate H].
      inversion H; subst fp. split; [exact H3d|]. split; [reflexivity|].
      symmetry. apply Hrep. reflexivity.
Qed.


End MainLaws.

End SessionLaws.

(* ================================================================== *)
(** ** The further properties at work on concrete sessions *)
(* ================================================================== *)

Module Instances.
Import PyText PyTextFacts TextLaws Classifier ClassifierFacts ClassifierLaws.
Import Session SessionFacts SessionLaws.

Lemma outcome_table_witness :
  kind (classify "No exact OS matches for host") = NoExactMatch
  /\ ~ Occurs "OS details: " "Running: Linux 3.2".
Proof.
  split.
  - destruct (outcome_table "No exact OS matches for host") as (_ & _ & H & _).
    apply H. repeat split;
      try (apply first_match_none; vm_compute; reflexivity).
    exists "", " for host". reflexivity.
  - destruct (outcome_table "Running: Linux 3.2") as (_ & H & _).
    apply (proj1 H). reflexivity.
Defined.

Lemma first_capture_alone (lit cap : string) :
  cap <> "" -> one_line cap -> FirstCapture lit (lit ++ cap) cap.
Proof.
  intros Hne Hone. exists "", "". simpl. rewrite str_app_empty_r.
  repeat split; try assumption; [now left | intros pre' _; lia].
Defined.

Lemma exact_and_guess_print_alike_witness :
  parse_os_fingerprint "OS details: Linux 3.2"
  = parse_os_fingerprint "Running: Linux 3.2".
Proof.
  apply (exact_and_guess_print_alike "OS details: Linux 3.2"
           "Running: Linux 3.2" "Linux 3.2").
  - apply (first_capture_alone "OS details: " "Linux 3.2");
      [discriminate | simpl; repeat split; discriminate].
  - apply first_match_none. vm_compute. reflexivity.
  - apply (first_capture_alone "Running: " "Linux 3.2");
      [discriminate | simpl; repeat split; discriminate].
Defined.

Lemma later_lines_ignored_witness :
  classify ("OS details: Linux 5.0" ++ String newline "OS details: BSD")
  = classify "OS details: Linux 5.0".
Proof.
  apply (proj1 (later_lines_ignored "OS details: Linux 5.0" "OS details: BSD")).
  exists "", "L"%char, "inux 5.0". split; [reflexivity | discriminate].
Defined.

Lemma command_is_words_witness :
  nmap_command "nmap" "  " "10.0.0.1"
  = (split "nmap" ++ split "10.0.0.1")%list.
Proof.
  destruct (command_is_words "nmap" "  " "10.0.0.1") as (_ & _ & H).
  exact (H eq_refl).
Defined.

Lemma command_frame_witness :
  last (nmap_command "nmap" "-O  -T4" "10.0.0.1") "" = "10.0.0.1".
Proof.
  assert (Hp : token "nmap") by (split; [discriminate | reflexivity]).
  assert (Ht : token "10.0.0.1") by (split; [discriminate | reflexivity]).
  destruct (command_frame "nmap" "-O  -T4" "10.0.0.1" Hp Ht) as (_ & _ & H).
  exact H.
Defined.


Lemma lookup_names_are_stripped_witness :
  interactive_target_selection demo_gethostbyname twice_the_same
  = interactive_target_selection demo_if_stripped twice_the_same.
Proof.
  apply lookup_names_are_stripped. intros x _ Hx.
  unfold demo_if_stripped. rewrite Hx, String.eqb_refl. reflexivity.
Defined.

Lemma mode_selection_closed_form_witness :
  console (snd (select_scan_mode mistyped_mode))
  = (console mistyped_mode ++ [mode_table])%list.
Proof.
  exact (proj1 (mode_selection_closed_form mistyped_mode
                  (snd (select_scan_mode mistyped_mode)) "custom" "-sV" eq_refl)).
Defined.







Lemma plot_gets_the_report_witness :
  ~ In unavailable_warning
      (console (snd (main demo_gethostbyname demo_subprocess_run None true
                       plotting_session))).
Proof.
  exact (proj1 (plot_gets_the_report demo_gethostbyname demo_subprocess_run None
                  true plotting_session _ _ (surjective_pairing _) eq_refl)).
Defined.


End Instances.
